(** * speechbrain.nnet.CNN: the [Conv] layer

    A shallow embedding of [speechbrain/nnet/CNN.py].  The class [Conv] is a
    thin adapter over the tensor library: its own logic is the kernel check of
    the constructor, the lazy initialisation on the first input, the padding
    arithmetic and the synthesis of the sinc filter bank.

    Modelling choices.
    - Python integers are [Z]; [//] and [%] with a positive divisor are
      [Z.div] and [Z.modulo]; the true division [/] of two integers is a
      rational ([Q]) and [int] truncates it towards zero.  Python's
      quotient is the float nearest to this rational, and so the rational
      itself where a float holds it, as it does the integers and the
      halves of integers up to 2^53: [padding_in_range] names the operands
      of the padding arithmetic for which the two agree, and the theorems
      on padded lengths keep to them.
    - [kernel_size] is an [int], a tuple or a list; [stride] and [dilation]
      are sequences of integers, as their defaults are.
    - A tensor that is only convolved is represented by its shape (a list of
      dimensions): the convolution itself belongs to the tensor library, whose
      shape contract is stated in [Module Torch].  Shapes carry no bound
      from the memory of a machine.
    - The values of the sinc filter bank are real numbers ([R]); a column
      vector of shape (m, 1) or a row of shape (1, n) is a [list R], a matrix
      a list of rows.  Floating-point rounding is not modelled, and the
      division of [R] is total where a float division by zero gives an
      infinity or no number: the properties of filter values are stated for
      divisors other than zero, or write the division out.
    - Attributes created after construction ([in_channels], [conv],
      [low_hz_], ...) are [option]s; reading an unset one raises
      [AttributeError].  The [device] attribute is omitted.
    - Methods that assign attributes live in a state-and-exception monad over
      the object; the state survives a raised exception, as in Python. *)

From Stdlib Require Import ZArith List Bool Lia QArith Qround Reals Lra.
Import ListNotations.
Open Scope Z_scope.

(** ** Python values, exceptions and sequences *)

Inductive exn : Set :=
| ValueError
| TypeError
| IndexError
| AttributeError
| RuntimeError
| ZeroDivisionError
| NotImplementedError.

Inductive result (A : Type) : Type :=
| OK (a : A)
| Raise (e : exn).
Arguments OK {A} a.
Arguments Raise {A} e.

Definition rbind {A B} (r : result A) (f : A -> result B) : result B :=
  match r with
  | OK a => f a
  | Raise e => Raise e
  end.

Declare Scope res_scope.
Delimit Scope res_scope with res.
Notation "x <~ r ; k" := (rbind r (fun x => k))
  (at level 61, r at next level, right associativity) : res_scope.

(** The [kernel_size] argument: an [int], a tuple or a list of integers. *)
Inductive pyval : Set :=
| PyInt (n : Z)
| PyTuple (l : list Z)
| PyList (l : list Z).

Definition isinstance_int (v : pyval) : bool :=
  match v with PyInt _ => true | _ => false end.

(** The elements a [for] loop over the value visits. *)
Definition py_iter (v : pyval) : result (list Z) :=
  match v with
  | PyInt _ => Raise TypeError
  | PyTuple l | PyList l => OK l
  end.

Definition py_len (v : pyval) : result Z :=
  match v with
  | PyInt _ => Raise TypeError
  | PyTuple l | PyList l => OK (Z.of_nat (length l))
  end.

(** [l[i]], with Python's negative indices. *)
Definition seq_getitem (l : list Z) (i : Z) : result Z :=
  let n := Z.of_nat (length l) in
  let j := if i <? 0 then i + n else i in
  if (0 <=? j) && (j <? n)
  then match nth_error l (Z.to_nat j) with
       | Some v => OK v
       | None => Raise IndexError
       end
  else Raise IndexError.

Definition py_getitem (v : pyval) (i : Z) : result Z :=
  match v with
  | PyInt _ => Raise TypeError
  | PyTuple l | PyList l => seq_getitem l i
  end.

(** ["... %s." % v] with a single conversion: a tuple on the right is the
    argument tuple and must have exactly one element; anything else is the
    single argument. *)
Definition format_one (v : pyval) : result unit :=
  match v with
  | PyTuple [_] => OK tt
  | PyTuple _ => Raise TypeError
  | PyInt _ | PyList _ => OK tt
  end.

(** ["..." + n] with [n] an [int]: [str] and [int] do not concatenate. *)
Definition str_plus_int {A} (n : Z) : result A := Raise TypeError.

(** [a / b] on integers, and [int] and [math.ceil] on the quotient. *)
Definition py_truediv (a b : Z) : result Q :=
  if b =? 0 then Raise ZeroDivisionError
  else OK (inject_Z a / inject_Z b)%Q.

Definition py_int (q : Q) : Z :=
  if Qle_bool 0 q then Qfloor q else Qceiling q.

Definition math_ceil (q : Q) : Z := Qceiling q.

(** ** The shape contract of the tensor library *)

Module Torch.

Definition shape := list Z.

Inductive pad_mode : Set := constant | reflect | replicate | circular.

(** [x.transpose(1, -1)]: dimensions 1 and last exchanged. *)
Definition transpose_1_last (x : shape) : result shape :=
  match x with
  | b :: d1 :: rest =>
      match rev rest with
      | [] => OK [b; d1]
      | dl :: mid => OK (b :: dl :: rev mid ++ [d1])
      end
  | _ => Raise IndexError
  end.

Definition numel (x : shape) : Z := fold_right Z.mul 1 x.

(** [x.reshape] to explicit dimensions (none inferred). *)
Definition reshape (x new : shape) : result shape :=
  if forallb (fun d => 0 <=? d) new && (numel x =? numel new)
  then OK new else Raise RuntimeError.

(** [x.unsqueeze(1)] and [x.squeeze(1)]. *)
Definition unsqueeze_1 (x : shape) : result shape :=
  match x with
  | b :: rest => OK (b :: 1 :: rest)
  | [] => Raise IndexError
  end.

Definition squeeze_1 (x : shape) : result shape :=
  match x with
  | b :: d1 :: rest => OK (if d1 =? 1 then b :: rest else x)
  | _ => Raise IndexError
  end.

(** One padded dimension.  [reflect] and [replicate] refuse an empty
    dimension and an empty result; [reflect] needs both amounts below the
    length, [circular] at most the length. *)
Definition pad_dim (mode : pad_mode) (L pl pr : Z) : result Z :=
  let ok :=
    match mode with
    | reflect => (0 <? L) && (pl <? L) && (pr <? L) && (1 <=? L + pl + pr)
    | replicate => (0 <? L) && (1 <=? L + pl + pr)
    | circular => (pl <=? L) && (pr <=? L) && (0 <=? L + pl + pr)
    | constant => 0 <=? L + pl + pr
    end in
  if ok then OK (L + pl + pr) else Raise RuntimeError.

(** The dimensions are given last first, as the pairs of [pad] apply. *)
Fixpoint pad_dims (mode : pad_mode) (rdims : list Z) (pad : list Z)
  : result (list Z) :=
  match pad, rdims with
  | [], _ => OK rdims
  | pl :: pr :: pad', L :: rdims' =>
      (L' <~ pad_dim mode L pl pr;
       r <~ pad_dims mode rdims' pad';
       OK (L' :: r))%res
  | _, _ => Raise RuntimeError
  end.

(** The dimensions [pad] leaves alone; the first of two is the batch. *)
Definition leading_dims (x : shape) (p : list Z) : list Z :=
  firstn (length x - Nat.div2 (length p)) x.

(** [nn.functional.pad(x, pad, mode)].  The modes other than [constant] pad
    the last dimension of a 2D or 3D input, the last two of a 3D or 4D
    input and the last three of a 4D or 5D input; [reflect] and [replicate]
    refuse an input whose channel dimension is empty. *)
Definition pad (x : shape) (p : list Z) (mode : pad_mode) : result shape :=
  let rank := length x in
  let n := length p in
  let supported :=
    match mode with
    | constant => true
    | _ => ((n =? 2) && ((rank =? 2) || (rank =? 3)))%nat
           || ((n =? 4) && ((rank =? 3) || (rank =? 4)))%nat
           || ((n =? 6) && ((rank =? 4) || (rank =? 5)))%nat
    end in
  let channels :=
    match mode, leading_dims x p with
    | (reflect | replicate), ([c] | [_; c]) => negb (c =? 0)
    | _, _ => true
    end in
  if supported
  then if channels
       then (r <~ pad_dims mode (rev x) p; OK (rev r))%res
       else Raise RuntimeError
  else Raise NotImplementedError.

(** Length of a convolved axis (no padding inside the convolution). *)
Definition conv_out_len (L k s d : Z) : result Z :=
  if (1 <=? k) && (1 <=? s) && (1 <=? d) && (d * (k - 1) + 1 <=? L)
  then OK ((L - d * (k - 1) - 1) / s + 1)
  else Raise RuntimeError.

(** [F.conv1d]: input (N, C, L) against a weight of [cout] filters for
    [cin] channels.  A weight without a filter is refused; an input without
    a channel gives an output without one. *)
Definition F_conv1d (x : shape) (cin cout k s d : Z) : result shape :=
  match x with
  | [n; c; L] =>
      if (1 <=? cout) && (c =? cin)
      then (L' <~ conv_out_len L k s d;
            OK [n; if c =? 0 then 0 else cout; L'])%res
      else Raise RuntimeError
  | _ => Raise RuntimeError
  end.

(** [F.conv2d]: input (N, C, H, W); kernel, stride and dilation are pairs. *)
Definition F_conv2d (x : shape) (cin cout : Z) (k s d : list Z)
  : result shape :=
  match x, k, s, d with
  | [n; c; H; W], [kh; kw], [sh; sw], [dh; dw] =>
      if (1 <=? cout) && (c =? cin)
      then (H' <~ conv_out_len H kh sh dh;
            W' <~ conv_out_len W kw sw dw;
            OK [n; if c =? 0 then 0 else cout; H'; W'])%res
      else Raise RuntimeError
  | _, _, _, _ => Raise RuntimeError
  end.

(** The modules [nn.Conv1d] and [nn.Conv2d], built with [padding=0]. *)
Inductive conv_module : Type :=
| Conv1d (cin cout k s d g : Z) (b : bool)
| Conv2d (cin cout : Z) (k s d : list Z) (g : Z) (b : bool).

(** The checks of the constructors: [groups] is positive, both channel
    counts are multiples of it, and the weight has no negative dimension. *)
Definition check_channels (cin cout g : Z) : result unit :=
  if g <=? 0 then Raise ValueError
  else if negb (cin mod g =? 0) || negb (cout mod g =? 0)
       then Raise ValueError
       else if (0 <=? cout) && (0 <=? cin / g) then OK tt
            else Raise RuntimeError.

Definition nn_Conv1d (cin cout k s d g : Z) (b : bool)
  : result conv_module :=
  (_ <~ check_channels cin cout g;
   if 0 <=? k then OK (Conv1d cin cout k s d g b) else Raise RuntimeError)%res.

Definition nn_Conv2d (cin cout : Z) (k s d : list Z) (g : Z) (b : bool)
  : result conv_module :=
  (_ <~ check_channels cin cout g;
   if forallb (fun n => 0 <=? n) k then OK (Conv2d cin cout k s d g b)
   else Raise RuntimeError)%res.

Definition apply (m : conv_module) (x : shape) : result shape :=
  match m with
  | Conv1d cin cout k s d _ _ => F_conv1d x cin cout k s d
  | Conv2d cin cout k s d _ _ => F_conv2d x cin cout k s d
  end.

End Torch.
Import Torch.

(** ** The object *)

Record Conv : Type := {
  out_channels : Z;
  kernel_size : pyval;
  stride : list Z;
  dilation : list Z;
  padding : bool;
  groups : Z;
  bias : bool;
  padding_mode : pad_mode;
  sinc_conv : bool;
  sample_rate : Z;
  min_low_hz : R;
  min_band_hz : R;
  reshape_conv1d : bool;
  unsqueeze : bool;
  conv1d : bool;
  conv2d : bool;
  in_channels : option Z;
  conv : option conv_module;
  low_hz_ : option (list R);
  band_hz_ : option (list R);
  window_ : option (list R);
  n_ : option (list R)
}.

Definition set_kernel_size (v : pyval) (s : Conv) : Conv :=
  Build_Conv (out_channels s) v (stride s) (dilation s) (padding s)
    (groups s) (bias s) (padding_mode s) (sinc_conv s) (sample_rate s)
    (min_low_hz s) (min_band_hz s) (reshape_conv1d s) (unsqueeze s)
    (conv1d s) (conv2d s) (in_channels s) (conv s) (low_hz_ s) (band_hz_ s)
    (window_ s) (n_ s).

Definition set_stride (v : list Z) (s : Conv) : Conv :=
  Build_Conv (out_channels s) (kernel_size s) v (dilation s) (padding s)
    (groups s) (bias s) (padding_mode s) (sinc_conv s) (sample_rate s)
    (min_low_hz s) (min_band_hz s) (reshape_conv1d s) (unsqueeze s)
    (conv1d s) (conv2d s) (in_channels s) (conv s) (low_hz_ s) (band_hz_ s)
    (window_ s) (n_ s).

Definition set_dilation (v : list Z) (s : Conv) : Conv :=
  Build_Conv (out_channels s) (kernel_size s) (stride s) v (padding s)
    (groups s) (bias s) (padding_mode s) (sinc_conv s) (sample_rate s)
    (min_low_hz s) (min_band_hz s) (reshape_conv1d s) (unsqueeze s)
    (conv1d s) (conv2d s) (in_channels s) (conv s) (low_hz_ s) (band_hz_ s)
    (window_ s) (n_ s).

Definition set_reshape_conv1d (v : bool) (s : Conv) : Conv :=
  Build_Conv (out_channels s) (kernel_size s) (stride s) (dilation s)
    (padding s) (groups s) (bias s) (padding_mode s) (sinc_conv s)
    (sample_rate s) (min_low_hz s) (min_band_hz s) v (unsqueeze s)
    (conv1d s) (conv2d s) (in_channels s) (conv s) (low_hz_ s) (band_hz_ s)
    (window_ s) (n_ s).

Definition set_unsqueeze (v : bool) (s : Conv) : Conv :=
  Build_Conv (out_channels s) (kernel_size s) (stride s) (dilation s)
    (padding s) (groups s) (bias s) (padding_mode s) (sinc_conv s)
    (sample_rate s) (min_low_hz s) (min_band_hz s) (reshape_conv1d s) v
    (conv1d s) (conv2d s) (in_channels s) (conv s) (low_hz_ s) (band_hz_ s)
    (window_ s) (n_ s).

Definition set_conv1d (v : bool) (s : Conv) : Conv :=
  Build_Conv (out_channels s) (kernel_size s) (stride s) (dilation s)
    (padding s) (groups s) (bias s) (padding_mode s) (sinc_conv s)
    (sample_rate s) (min_low_hz s) (min_band_hz s) (reshape_conv1d s)
    (unsqueeze s) v (conv2d s) (in_channels s) (conv s) (low_hz_ s)
    (band_hz_ s) (window_ s) (n_ s).

Definition set_conv2d (v : bool) (s : Conv) : Conv :=
  Build_Conv (out_channels s) (kernel_size s) (stride s) (dilation s)
    (padding s) (groups s) (bias s) (padding_mode s) (sinc_conv s)
    (sample_rate s) (min_low_hz s) (min_band_hz s) (reshape_conv1d s)
    (unsqueeze s) (conv1d s) v (in_channels s) (conv s) (low_hz_ s)
    (band_hz_ s) (window_ s) (n_ s).

Definition set_in_channels (v : option Z) (s : Conv) : Conv :=
  Build_Conv (out_channels s) (kernel_size s) (stride s) (dilation s)
    (padding s) (groups s) (bias s) (padding_mode s) (sinc_conv s)
    (sample_rate s) (min_low_hz s) (min_band_hz s) (reshape_conv1d s)
    (unsqueeze s) (conv1d s) (conv2d s) v (conv s) (low_hz_ s) (band_hz_ s)
    (window_ s) (n_ s).

Definition set_conv (v : option conv_module) (s : Conv) : Conv :=
  Build_Conv (out_channels s) (kernel_size s) (stride s) (dilation s)
    (padding s) (groups s) (bias s) (padding_mode s) (sinc_conv s)
    (sample_rate s) (min_low_hz s) (min_band_hz s) (reshape_conv1d s)
    (unsqueeze s) (conv1d s) (conv2d s) (in_channels s) v (low_hz_ s)
    (band_hz_ s) (window_ s) (n_ s).

Definition set_low_hz_ (v : option (list R)) (s : Conv) : Conv :=
  Build_Conv (out_channels s) (kernel_size s) (stride s) (dilation s)
    (padding s) (groups s) (bias s) (padding_mode s) (sinc_conv s)
    (sample_rate s) (min_low_hz s) (min_band_hz s) (reshape_conv1d s)
    (unsqueeze s) (conv1d s) (conv2d s) (in_channels s) (conv s) v
    (band_hz_ s) (window_ s) (n_ s).

Definition set_band_hz_ (v : option (list R)) (s : Conv) : Conv :=
  Build_Conv (out_channels s) (kernel_size s) (stride s) (dilation s)
    (padding s) (groups s) (bias s) (padding_mode s) (sinc_conv s)
    (sample_rate s) (min_low_hz s) (min_band_hz s) (reshape_conv1d s)
    (unsqueeze s) (conv1d s) (conv2d s) (in_channels s) (conv s) (low_hz_ s)
    v (window_ s) (n_ s).

Definition set_window_ (v : option (list R)) (s : Conv) : Conv :=
  Build_Conv (out_channels s) (kernel_size s) (stride s) (dilation s)
    (padding s) (groups s) (bias s) (padding_mode s) (sinc_conv s)
    (sample_rate s) (min_low_hz s) (min_band_hz s) (reshape_conv1d s)
    (unsqueeze s) (conv1d s) (conv2d s) (in_channels s) (conv s) (low_hz_ s)
    (band_hz_ s) v (n_ s).

Definition set_n_ (v : option (list R)) (s : Conv) : Conv :=
  Build_Conv (out_channels s) (kernel_size s) (stride s) (dilation s)
    (padding s) (groups s) (bias s) (padding_mode s) (sinc_conv s)
    (sample_rate s) (min_low_hz s) (min_band_hz s) (reshape_conv1d s)
    (unsqueeze s) (conv1d s) (conv2d s) (in_channels s) (conv s) (low_hz_ s)
    (band_hz_ s) (window_ s) v.

(** ** The state-and-exception monad of the methods *)

Definition M (A : Type) : Type := Conv -> Conv * result A.

Definition ret {A} (a : A) : M A := fun s => (s, OK a).

Definition bind {A B} (m : M A) (f : A -> M B) : M B :=
  fun s =>
    match m s with
    | (s', OK a) => f a s'
    | (s', Raise e) => (s', Raise e)
    end.

Definition raise {A} (e : exn) : M A := fun s => (s, Raise e).

Definition lift {A} (r : result A) : M A := fun s => (s, r).

Definition get {A} (f : Conv -> A) : M A := fun s => (s, OK (f s)).

Definition assign (f : Conv -> Conv) : M unit := fun s => (f s, OK tt).

(** Reading an attribute that may not exist yet. *)
Definition getattr {A} (f : Conv -> option A) : M A :=
  fun s =>
    match f s with
    | Some a => (s, OK a)
    | None => (s, Raise AttributeError)
    end.

Definition when (b : bool) (m : M unit) : M unit :=
  if b then m else ret tt.

Notation "x <- m ;; k" := (bind m (fun x => k))
  (at level 61, m at next level, right associativity).
Notation "m ;; k" := (bind m (fun _ => k))
  (at level 61, right associativity).

(** ** Construction and the kernel check *)

(** The loop that makes sure every kernel size is odd; the message of the
    error is formatted from the whole [kernel_size]. *)
Fixpoint check_odd (ks : pyval) (sizes : list Z) : result unit :=
  match sizes with
  | [] => OK tt
  | size :: rest =>
      if size mod 2 =? 0
      then (_ <~ format_one ks; Raise ValueError)%res
      else check_odd ks rest
  end.

Definition _kernel_check : M unit :=
  assign (set_conv1d false) ;;
  assign (set_conv2d false) ;;
  ks <- get kernel_size ;;
  when (isinstance_int ks)
    (assign (set_kernel_size
               (match ks with PyInt n => PyTuple [n] | _ => ks end))) ;;
  ks <- get kernel_size ;;
  sizes <- lift (py_iter ks) ;;
  lift (check_odd ks sizes) ;;
  len <- lift (py_len ks) ;;
  when (len =? 1) (assign (set_conv1d true)) ;;
  when (len =? 2) (assign (set_conv2d true)) ;;
  sinc <- get sinc_conv ;;
  c2 <- get conv2d ;;
  if sinc && c2 then lift (str_plus_int len) else ret tt.

Definition __init__ (out_channels : Z) (kernel_size : pyval)
  (stride dilation : list Z) (padding : bool) (groups : Z) (bias : bool)
  (padding_mode : pad_mode) (sinc_conv : bool) (sample_rate : Z)
  (min_low_hz min_band_hz : R) : result Conv :=
  let self :=
    Build_Conv out_channels kernel_size stride dilation padding groups bias
      padding_mode sinc_conv sample_rate min_low_hz min_band_hz
      false false false false None None None None None None in
  match _kernel_check self with
  | (self', OK _) => OK self'
  | (_, Raise e) => Raise e
  end.

(** The constructor with the defaults of its keyword arguments. *)
Definition Conv_default (out_channels : Z) (kernel_size : pyval)
  : result Conv :=
  __init__ out_channels kernel_size [1; 1] [1; 1] true 1 true reflect
    false 16000 50%R 50%R.

(** ** Padding *)

(** [_get_padding_elem]: the two amounts added to one axis.  With a stride
    above one, [n_steps] and [L_out] are computed and not used. *)
Definition _get_padding_elem (L_in stride kernel_size dilation : Z)
  : result (list Z) :=
  if 1 <? stride then
    (q <~ py_truediv (L_in - kernel_size * dilation) stride;
     let n_steps := math_ceil (q + 1)%Q in
     let L_out := stride * (n_steps - 1) + kernel_size * dilation in
     let padding := [kernel_size / 2; kernel_size / 2] in
     OK padding)%res
  else
    (q <~ py_truediv (L_in - dilation * (kernel_size - 1) - 1) stride;
     let L_out := py_int (q + 1)%Q in
     let padding := [(L_in - L_out) / 2; (L_in - L_out) / 2] in
     OK padding)%res.

(** [_manage_padding]: the time axis is the last one; in 2D mode the
    frequency axis, one before, is padded from the same [L_in]. *)
Definition _manage_padding (x : shape) (kernel_size : pyval)
  (dilation stride : list Z) : M shape :=
  L_in <- lift (seq_getitem x (-1)) ;;
  s <- lift (seq_getitem stride (-1)) ;;
  k <- lift (py_getitem kernel_size (-1)) ;;
  d <- lift (seq_getitem dilation (-1)) ;;
  padding <- lift (_get_padding_elem L_in s k d) ;;
  c2 <- get conv2d ;;
  padding <-
    (if c2 : bool then
       s <- lift (seq_getitem stride (-2)) ;;
       k <- lift (py_getitem kernel_size (-2)) ;;
       d <- lift (seq_getitem dilation (-2)) ;;
       padding_freq <- lift (_get_padding_elem L_in s k d) ;;
       ret (padding ++ padding_freq)
     else ret padding) ;;
  mode <- get padding_mode ;;
  lift (pad x padding mode).

(** ** Lazy initialisation of the 1D and 2D layers *)

(** The messages of the rank errors add an [int] to a [str]: the length of
    the shape, or [len(first_input)], the first dimension. *)

Definition _init_conv1d (first_input : shape) : M unit :=
  let rank := Z.of_nat (length first_input) in
  (if rank =? 1 then lift (str_plus_int rank) else ret tt) ;;
  when (rank =? 2)
    (assign (set_unsqueeze true) ;;
     assign (set_in_channels (Some 1))) ;;
  when (rank =? 3)
    (c <- lift (seq_getitem first_input 2) ;;
     assign (set_in_channels (Some c))) ;;
  when (rank =? 4)
    (assign (set_reshape_conv1d true) ;;
     c <- lift (seq_getitem first_input 2) ;;
     f <- lift (seq_getitem first_input 3) ;;
     assign (set_in_channels (Some (c * f)))) ;;
  (if 4 <? rank then lift (str_plus_int (hd 0 first_input)) else ret tt) ;;
  cin <- getattr in_channels ;;
  cout <- get out_channels ;;
  ks <- get kernel_size ;;
  k <- lift (py_getitem ks 0) ;;
  st <- get stride ;;
  s <- lift (seq_getitem st 0) ;;
  dl <- get dilation ;;
  d <- lift (seq_getitem dl 0) ;;
  g <- get groups ;;
  b <- get bias ;;
  m <- lift (nn_Conv1d cin cout k s d g b) ;;
  assign (set_conv (Some m)).

Definition _init_conv2d (first_input : shape) : M unit :=
  let rank := Z.of_nat (length first_input) in
  (if rank <=? 2 then lift (str_plus_int rank) else ret tt) ;;
  when (rank =? 3)
    (assign (set_unsqueeze true) ;;
     assign (set_in_channels (Some 1))) ;;
  when (rank =? 4)
    (c <- lift (seq_getitem first_input 3) ;;
     assign (set_in_channels (Some c))) ;;
  (if 4 <? rank then lift (str_plus_int (hd 0 first_input)) else ret tt) ;;
  ks <- get kernel_size ;;
  k1 <- lift (py_getitem ks 1) ;;
  k0 <- lift (py_getitem ks 0) ;;
  assign (set_kernel_size (PyTuple [k1; k0])) ;;
  st <- get stride ;;
  s1 <- lift (seq_getitem st 1) ;;
  s0 <- lift (seq_getitem st 0) ;;
  assign (set_stride [s1; s0]) ;;
  dl <- get dilation ;;
  d1 <- lift (seq_getitem dl 1) ;;
  d0 <- lift (seq_getitem dl 0) ;;
  assign (set_dilation [d1; d0]) ;;
  cin <- getattr in_channels ;;
  cout <- get out_channels ;;
  ks <- get kernel_size ;;
  kl <- lift (py_iter ks) ;;
  st <- get stride ;;
  dl <- get dilation ;;
  g <- get groups ;;
  b <- get bias ;;
  m <- lift (nn_Conv2d cin cout kl st dl g b) ;;
  assign (set_conv (Some m)).

(** ** The mel scale and the sinc filter bank *)

(** [np.log10 x] is [ln x / ln 10] for a positive [x] and [10 ** y] is
    [Rpower 10 y]; [_to_mel] is meant for frequencies above -700 Hz, where
    the logarithm is defined. *)
Definition _to_mel (hz : R) : R := (2595 * (ln (1 + hz / 700) / ln 10))%R.

Definition _to_hz (mel : R) : R := (700 * (Rpower 10 (mel / 2595) - 1))%R.

(** [torch.linspace(start, stop, steps)]: the points
    [start + i * (stop - start) / (steps - 1)]. *)
Definition linspace_points (start stop : R) (steps : Z) : list R :=
  map (fun i => start + INR i * ((stop - start) / (IZR steps - 1)))%R
    (seq 0 (Z.to_nat steps)).

Definition linspace (start stop : R) (steps : Z) : result (list R) :=
  if steps <? 0 then Raise RuntimeError
  else OK (linspace_points start stop steps).

(** [torch.arange(start, stop)] with step one. *)
Definition arange (start stop : Q) : list Q :=
  map (fun i => start + inject_Z (Z.of_nat i))%Q
    (seq 0 (Z.to_nat (Qceiling (stop - start)))).

(** [torch.clamp(x, lo, hi)]. *)
Definition clamp (x lo hi : R) : R := Rmin (Rmax x lo) hi.

(** Element-wise operations broadcast an operand of length one. *)
Definition bcast {A B C} (f : A -> B -> C) (l1 : list A) (l2 : list B)
  : result (list C) :=
  if (length l1 =? length l2)%nat
  then OK (map (fun p => f (fst p) (snd p)) (combine l1 l2))
  else match l1, l2 with
       | [a], _ => OK (map (f a) l2)
       | _, [b] => OK (map (fun a => f a b) l1)
       | _, _ => Raise RuntimeError
       end.

Fixpoint sequence {A} (l : list (result A)) : result (list A) :=
  match l with
  | [] => OK []
  | r :: rest => (a <~ r; t <~ sequence rest; OK (a :: t))%res
  end.

Definition matrix := list (list R).

Definition bcast2 (f : R -> R -> R) (m1 m2 : matrix) : result matrix :=
  (rows <~ bcast (bcast f) m1 m2; sequence rows)%res.

(** [torch.matmul] of a column (m, 1) and a row (1, n). *)
Definition outer (col row : list R) : matrix :=
  map (fun a => map (Rmult a) row) col.

(** [torch.cat([a, b, c], dim=1)]: the row counts agree. *)
Definition cat3 (a b c : matrix) : result matrix :=
  if ((length a =? length b) && (length b =? length c))%nat
  then OK (map (fun p => fst (fst p) ++ snd (fst p) ++ snd p)
             (combine (combine a b) c))
  else Raise RuntimeError.

Fixpoint chunks (rows cols : nat) (flat : list R) : matrix :=
  match rows with
  | O => []
  | S r => firstn cols flat :: chunks r cols (skipn cols flat)
  end.

(** [m.view(rows, 1, cols)]; the singleton axis is left implicit. *)
Definition view (m : matrix) (rows cols : Z) : result matrix :=
  let flat := concat m in
  if (0 <=? rows) && (0 <=? cols) && (Z.of_nat (length flat) =? rows * cols)
  then OK (chunks (Z.to_nat rows) (Z.to_nat cols) flat)
  else Raise RuntimeError.

(** The cut-off frequencies of [_get_sinc_filters]. *)
Definition sinc_low (self : Conv) (low_hz : list R) : list R :=
  map (fun l => min_low_hz self + Rabs l)%R low_hz.

Definition sinc_high (self : Conv) (low band_hz : list R)
  : result (list R) :=
  bcast (fun l b => clamp (l + min_band_hz self + Rabs b)
                      (min_low_hz self) (IZR (sample_rate self) / 2))%R
    low band_hz.

Definition _init_sinc_conv (first_input : shape) : M unit :=
  _init_conv1d first_input ;;
  sr <- get sample_rate ;;
  mlo <- get min_low_hz ;;
  mbd <- get min_band_hz ;;
  let high_hz := (IZR sr / 2 - (mlo + mbd))%R in
  cout <- get out_channels ;;
  mel <- lift (linspace (_to_mel mlo) (_to_mel high_hz) (cout + 1)) ;;
  let hz := map _to_hz mel in
  assign (set_low_hz_ (Some (removelast hz))) ;;
  band <- lift (bcast Rminus (tl hz) (removelast hz)) ;;
  assign (set_band_hz_ (Some band)) ;;
  ks <- get kernel_size ;;
  k <- lift (py_getitem ks 0) ;;
  half <- lift (py_truediv k 2) ;;
  n_lin <- lift (linspace 0 (Q2R half - 1) (py_int half)) ;;
  assign (set_window_
            (Some (map (fun t => 0.54 - 0.46 * cos (2 * PI * t / IZR k))%R
                     n_lin))) ;;
  n <- lift (py_truediv (k - 1) 2) ;;
  assign (set_n_
            (Some (map (fun t => 2 * PI * Q2R t / IZR sr)%R
                     (arange (- n) 0)))).

Definition _get_sinc_filters : M matrix :=
  self <- get (fun s => s) ;;
  low_hz <- getattr low_hz_ ;;
  let low := sinc_low self low_hz in
  band_hz <- getattr band_hz_ ;;
  high <- lift (sinc_high self low band_hz) ;;
  band <- lift (bcast Rminus high low) ;;
  n <- getattr n_ ;;
  let f_times_t_low := outer low n in
  let f_times_t_high := outer high n in
  w <- getattr window_ ;;
  d <- lift (bcast2 (fun a b => sin a - sin b)%R
               f_times_t_high f_times_t_low) ;;
  q <- lift (bcast2 Rdiv d [map (fun t => t / 2)%R n]) ;;
  band_pass_left <- lift (bcast2 Rmult q [w]) ;;
  let band_pass_center := map (fun b => [2 * b]%R) band in
  let band_pass_right := map (@rev R) band_pass_left in
  band_pass <- lift (cat3 band_pass_left band_pass_center band_pass_right) ;;
  band_pass <- lift (bcast2 Rdiv band_pass (map (fun b => [2 * b]%R) band)) ;;
  cout <- get out_channels ;;
  ks <- get kernel_size ;;
  k <- lift (py_getitem ks 0) ;;
  lift (view band_pass cout k).

(** ** [init_params] and [forward] *)

(** In [forward] the tensors are shapes.  The sinc filters are computed, so
    that their errors are those of the call, and convolved as a weight of
    shape (out_channels, 1, kernel_size[0]), the shape [_get_sinc_filters]
    views them in. *)

Definition init_params (first_input : shape) : M unit :=
  c1 <- get conv1d ;;
  (if c1 : bool then
     sc <- get sinc_conv ;;
     if sc : bool then _init_sinc_conv first_input
     else _init_conv1d first_input
   else ret tt) ;;
  c2 <- get conv2d ;;
  when c2 (_init_conv2d first_input).

Definition forward (x : shape) (init : bool) : M shape :=
  when init (init_params x) ;;
  x <- lift (transpose_1_last x) ;;
  rc <- get reshape_conv1d ;;
  let or_shape := x in
  x <- (if rc : bool then
          o0 <- lift (seq_getitem or_shape 0) ;;
          o1 <- lift (seq_getitem or_shape 1) ;;
          o2 <- lift (seq_getitem or_shape 2) ;;
          o3 <- lift (seq_getitem or_shape 3) ;;
          lift (reshape x [o0; o1 * o2; o3])
        else ret x) ;;
  us <- get unsqueeze ;;
  x <- (if us : bool then lift (unsqueeze_1 x) else ret x) ;;
  pd <- get padding ;;
  x <- (if pd : bool then
          ks <- get kernel_size ;;
          dl <- get dilation ;;
          st <- get stride ;;
          _manage_padding x ks dl st
        else ret x) ;;
  sc <- get sinc_conv ;;
  wx <- (if sc : bool then
           _get_sinc_filters ;;
           cout <- get out_channels ;;
           ks <- get kernel_size ;;
           k <- lift (py_getitem ks 0) ;;
           st <- get stride ;;
           s <- lift (seq_getitem st 0) ;;
           dl <- get dilation ;;
           d <- lift (seq_getitem dl 0) ;;
           lift (F_conv1d x 1 cout k s d)
         else
           m <- getattr conv ;;
           lift (apply m x)) ;;
  wx <- (if us : bool then lift (squeeze_1 wx) else ret wx) ;;
  wx <- (if rc : bool then
           o0 <- lift (seq_getitem or_shape 0) ;;
           w1 <- lift (seq_getitem wx 1) ;;
           w2 <- lift (seq_getitem wx 2) ;;
           w3 <- lift (seq_getitem wx 3) ;;
           lift (reshape wx [o0; w1; w2; w3])
         else ret wx) ;;
  lift (transpose_1_last wx).

(** ** Vocabulary of the statements *)

(** The sizes listed by a [kernel_size] argument, their number, and the
    sequence the kernel check leaves in the attribute. *)
Definition kernel_sizes (ks : pyval) : list Z :=
  match ks with
  | PyInt n => [n]
  | PyTuple l | PyList l => l
  end.

Definition arity (ks : pyval) : Z := Z.of_nat (length (kernel_sizes ks)).

Definition as_sequence (ks : pyval) : pyval :=
  match ks with
  | PyInt n => PyTuple [n]
  | _ => ks
  end.

(** The object a successful construction returns. *)
Definition constructed (oc : Z) (ks : pyval) (st dl : list Z) (pd : bool)
  (g : Z) (b : bool) (pm : pad_mode) (sc : bool) (sr : Z) (mlo mbd : R)
  : Conv :=
  Build_Conv oc (as_sequence ks) st dl pd g b pm sc sr mlo mbd
    false false (arity ks =? 1) (arity ks =? 2)
    None None None None None None.

(** A method leaves an attribute as it found it. *)
Definition preserves {A B} (f : Conv -> B) (m : M A) : Prop :=
  forall s, f (fst (m s)) = f s.

(** What [_manage_padding] makes of one axis of length [L] when the layer
    pads, the amounts being computed from [L_in]. *)
Definition padded_axis (pd : bool) (pm : pad_mode) (L_in L s k d : Z)
  : result Z :=
  if pd then
    (p <~ _get_padding_elem L_in s k d;
     match p with
     | [pl; pr] => pad_dim pm L pl pr
     | _ => Raise RuntimeError
     end)%res
  else OK L.

(** A matrix of [r] rows of [c] entries. *)
Definition has_shape (m : matrix) (r c : nat) : Prop :=
  length m = r /\ Forall (fun row => length row = c) m.

(** The row [l ++ [2 b] ++ rev l] divided by [2 b]: a filter with left half
    [l] and band [b]. *)
Definition normalised_palindrome (p : list R * R) : list R :=
  map (fun a => a / (2 * snd p))%R (fst p ++ [2 * snd p]%R ++ rev (fst p)).

(** The attributes a call of [forward] reads before it convolves. *)
Definition call_attributes (s : Conv) :=
  (reshape_conv1d s, unsqueeze s, sinc_conv s, conv2d s, kernel_size s,
   stride s, dilation s, padding s, padding_mode s, out_channels s).

(** ** Vocabulary of the further properties *)

(** A method does not undo a property of the object. *)
Definition keeps {A} (P : Conv -> Prop) (m : M A) : Prop :=
  forall s, P s -> P (fst (m s)).

(** The upper end of the initial filter bank and the frequencies [hz] of
    [_init_sinc_conv]: the points equally spaced in mel, taken back to
    Hz. *)
Definition high_hz (s : Conv) : R :=
  (IZR (sample_rate s) / 2 - (min_low_hz s + min_band_hz s))%R.

Definition initial_hz (s : Conv) : list R :=
  map _to_hz
    (linspace_points (_to_mel (min_low_hz s)) (_to_mel (high_hz s))
       (out_channels s + 1)).

(** The operands of [_get_padding_elem] within the range of the float
    arithmetic: no quotient overflows, and with a stride of one the
    quotient and the quotient plus one are integers a float holds. *)
Definition padding_in_range (L_in kernel_size dilation : Z) : Prop :=
  Z.abs (L_in - kernel_size * dilation) <= 2 ^ 53 /\
  Z.abs (L_in - dilation * (kernel_size - 1) - 1) < 2 ^ 53.


(** The amount [_get_padding_elem] adds on either side of an axis for a
    stride of one or more. *)
Definition padding_amount (s k d : Z) : Z :=
  if 1 <? s then k / 2 else d * (k - 1) / 2.

(** * Properties *)

(** ** The monad *)

Lemma preserves_ret {A B} (f : Conv -> B) (a : A) : preserves f (ret a).
Proof. intros s; reflexivity. Qed.

Lemma preserves_lift {A B} (f : Conv -> B) (r : result A) :
  preserves f (lift r).
Proof. intros s; reflexivity. Qed.

Lemma preserves_raise {A B} (f : Conv -> B) (e : exn) :
  preserves f (@raise A e).
Proof. intros s; reflexivity. Qed.

Lemma preserves_get {A B} (f : Conv -> B) (h : Conv -> A) :
  preserves f (get h).
Proof. intros s; reflexivity. Qed.

Lemma preserves_getattr {A B} (f : Conv -> B) (h : Conv -> option A) :
  preserves f (getattr h).
Proof. intros s; unfold getattr; destruct (h s); reflexivity. Qed.

Lemma preserves_assign {B} (f : Conv -> B) (h : Conv -> Conv) :
  (forall s, f (h s) = f s) -> preserves f (assign h).
Proof. intros H s; apply H. Qed.

Lemma preserves_bind {A B C} (f : Conv -> C) (m : M A) (k : A -> M B) :
  preserves f m -> (forall a, preserves f (k a)) -> preserves f (bind m k).
Proof.
  intros Hm Hk s. unfold bind. specialize (Hm s).
  destruct (m s) as [s' [a|e]]; cbn in *.
  - rewrite Hk. exact Hm.
  - exact Hm.
Qed.

Lemma preserves_when {B} (f : Conv -> B) (c : bool) (m : M unit) :
  preserves f m -> preserves f (when c m).
Proof. destruct c; [auto | intros _; apply preserves_ret]. Qed.

Ltac frame :=
  repeat first
    [ apply preserves_ret | apply preserves_lift | apply preserves_get
    | apply preserves_getattr | apply preserves_raise
    | apply preserves_assign; intros; reflexivity
    | apply preserves_bind; [|intros]
    | apply preserves_when
    | match goal with
      | |- preserves _ (if ?c then _ else _) => destruct c
      | |- preserves _ (let _ := _ in _) => cbv zeta
      end ].

(** The state after a sequence whose continuation leaves [f] alone. *)
Lemma fst_bind_preserves {A B C} (f : Conv -> C) (m : M A) (k : A -> M B) s :
  (forall a, preserves f (k a)) -> f (fst (bind m k s)) = f (fst (m s)).
Proof.
  intros Hk. unfold bind. destruct (m s) as [s' [a|e]]; cbn; auto.
  apply Hk.
Qed.

(** ** The constructor *)

Lemma check_odd_OK ks l :
  check_odd ks l = OK tt <-> Forall (fun n => n mod 2 <> 0) l.
Proof.
  induction l as [|n l IH]; cbn.
  - split; auto.
  - destruct (n mod 2 =? 0) eqn:E.
    + split.
      * destruct (format_one ks); discriminate.
      * intros H. inversion H; subst. apply Z.eqb_eq in E. contradiction.
    + rewrite IH. apply Z.eqb_neq in E. split.
      * intros; constructor; auto.
      * intros H; inversion H; auto.
Qed.

Lemma check_odd_even ks l :
  Exists (fun n => n mod 2 = 0) l ->
  check_odd ks l = Raise (match format_one ks with
                          | OK _ => ValueError
                          | Raise e => e
                          end).
Proof.
  induction 1 as [n l H | n l H IH]; cbn.
  - apply Z.eqb_eq in H. rewrite H. destruct (format_one ks); reflexivity.
  - destruct (n mod 2 =? 0); [destruct (format_one ks); reflexivity | exact IH].
Qed.

Section Constructor.

Variables (oc : Z) (ks : pyval) (st dl : list Z) (pd : bool) (g : Z)
  (b : bool) (pm : pad_mode) (sc : bool) (sr : Z) (mlo mbd : R).

Lemma init_unfold :
  __init__ oc ks st dl pd g b pm sc sr mlo mbd =
  match check_odd (as_sequence ks) (kernel_sizes ks) with
  | OK _ =>
      if sc && (arity ks =? 2) then Raise TypeError
      else OK (constructed oc ks st dl pd g b pm sc sr mlo mbd)
  | Raise e => Raise e
  end.
Proof.
  unfold __init__, _kernel_check, constructed, arity.
  destruct ks as [n | l | l]; cbn;
    match goal with
    | |- context [check_odd ?a ?l] => destruct (check_odd a l)
    | |- context [n mod 2 =? 0] => destruct (n mod 2 =? 0)
    end; cbn; try reflexivity;
    try (rewrite andb_false_r; reflexivity);
    destruct (Z.of_nat (length l) =? 1), (Z.of_nat (length l) =? 2), sc;
    reflexivity.
Qed.

Lemma init_succeeds :
  Forall (fun n => n mod 2 <> 0) (kernel_sizes ks) ->
  sc && (arity ks =? 2) = false ->
  __init__ oc ks st dl pd g b pm sc sr mlo mbd =
  OK (constructed oc ks st dl pd g b pm sc sr mlo mbd).
Proof.
  intros Hodd Hsinc. rewrite init_unfold.
  apply (check_odd_OK (as_sequence ks)) in Hodd. rewrite Hodd, Hsinc.
  reflexivity.
Qed.

Lemma init_inversion self :
  __init__ oc ks st dl pd g b pm sc sr mlo mbd = OK self ->
  Forall (fun n => n mod 2 <> 0) (kernel_sizes ks) /\
  sc && (arity ks =? 2) = false /\
  self = constructed oc ks st dl pd g b pm sc sr mlo mbd.
Proof.
  rewrite init_unfold.
  destruct (check_odd (as_sequence ks) (kernel_sizes ks)) as [[]|e] eqn:E;
    [|discriminate].
  apply check_odd_OK in E.
  destruct (sc && (arity ks =? 2)); [discriminate|].
  intros [= <-]. auto.
Qed.

(** An even size stops the construction; the exception is the [ValueError]
    of the check unless formatting its message fails first. *)
Lemma init_even_raises :
  Exists (fun n => n mod 2 = 0) (kernel_sizes ks) ->
  __init__ oc ks st dl pd g b pm sc sr mlo mbd =
  Raise (match ks with
         | PyTuple (_ :: _ :: _) => TypeError
         | _ => ValueError
         end).
Proof.
  intros H. rewrite init_unfold.
  rewrite (check_odd_even (as_sequence ks) _ H).
  destruct ks as [n | [|n [|m l]] | l]; try reflexivity.
  inversion H.
Qed.

End Constructor.

(** ** Frames of the initialisers *)

Lemma init_conv1d_keeps_conv2d x : preserves conv2d (_init_conv1d x).
Proof. unfold _init_conv1d. frame. Qed.

Lemma init_sinc_conv_keeps_conv2d x : preserves conv2d (_init_sinc_conv x).
Proof.
  unfold _init_sinc_conv.
  apply preserves_bind; [apply init_conv1d_keeps_conv2d | intros; frame].
Qed.

Lemma init_params_1d x s :
  conv1d s = true -> conv2d s = false ->
  init_params x s =
  (if sinc_conv s then _init_sinc_conv x s else _init_conv1d x s).
Proof.
  intros H1 H2. unfold init_params, bind, get. rewrite H1.
  destruct (sinc_conv s).
  - pose proof (init_sinc_conv_keeps_conv2d x s) as F.
    destruct (_init_sinc_conv x s) as [s' [[]|e]]; cbn in *; [|reflexivity].
    rewrite F, H2. reflexivity.
  - pose proof (init_conv1d_keeps_conv2d x s) as F.
    destruct (_init_conv1d x s) as [s' [[]|e]]; cbn in *; [|reflexivity].
    rewrite F, H2. reflexivity.
Qed.

Lemma init_params_2d x s :
  conv1d s = false -> conv2d s = true ->
  init_params x s = _init_conv2d x s.
Proof.
  intros H1 H2. unfold init_params, bind, get. rewrite H1.
  cbn. rewrite H2. reflexivity.
Qed.

(** ** Dispatch on the kernel size *)

(** The flags a successful construction leaves. *)
Lemma init_flags oc ks st dl pd g b pm sc sr mlo mbd self :
  __init__ oc ks st dl pd g b pm sc sr mlo mbd = OK self ->
  sinc_conv self = sc /\
  conv1d self = (arity ks =? 1) /\
  conv2d self = (arity ks =? 2) /\
  sc && (arity ks =? 2) = false.
Proof.
  intros H. apply init_inversion in H. destruct H as (_ & Hs & ->). auto.
Qed.

(** C2.  A successful construction has decided the mode from the number of
    kernel sizes and the [sinc_conv] flag: one size (an [int] counts as one)
    sets [conv1d] only, and [init_params] then builds the sinc layer when the
    flag is set and the plain 1D layer otherwise; two sizes set [conv2d]
    only, [init_params] builds the 2D layer, and the flag is off, that is,
    no construction with [sinc_conv] and two sizes succeeds. *)
Theorem kernel_check_dispatch oc ks st dl pd g b pm sc sr mlo mbd self :
  __init__ oc ks st dl pd g b pm sc sr mlo mbd = OK self ->
  sinc_conv self = sc /\
  (arity ks = 1 ->
   conv1d self = true /\ conv2d self = false /\
   forall x, init_params x self =
             if sc then _init_sinc_conv x self else _init_conv1d x self) /\
  (arity ks = 2 ->
   sc = false /\ conv1d self = false /\ conv2d self = true /\
   forall x, init_params x self = _init_conv2d x self).
Proof.
  intros H. apply init_flags in H. destruct H as (Hs & H1 & H2 & Hx).
  split; [exact Hs|]. split; intros Ha; rewrite Ha in *; cbn in H1, H2, Hx.
  - repeat split; auto. intros x. rewrite init_params_1d, Hs by assumption.
    reflexivity.
  - rewrite andb_true_r in Hx.
    repeat split; auto. intros x. apply init_params_2d; assumption.
Qed.

Lemma kernel_check_dispatch_witness :
  __init__ 25 (PyTuple [11; 5]) [1; 1] [1; 1] true 1 true reflect false
    16000 50 50
  = OK (constructed 25 (PyTuple [11; 5]) [1; 1] [1; 1] true 1 true reflect
          false 16000 50 50) /\
  conv2d (constructed 25 (PyTuple [11; 5]) [1; 1] [1; 1] true 1 true reflect
            false 16000 50 50) = true.
Proof.
  assert (H : __init__ 25 (PyTuple [11; 5]) [1; 1] [1; 1] true 1 true reflect
                false 16000 50 50
              = OK (constructed 25 (PyTuple [11; 5]) [1; 1] [1; 1] true 1 true
                      reflect false 16000 50 50)) by reflexivity.
  split; [exact H|].
  destruct (kernel_check_dispatch _ _ _ _ _ _ _ _ _ _ _ _ _ H) as (_ & _ & H2).
  destruct (H2 eq_refl) as (_ & _ & H3 & _). exact H3.
Defined.

(** A [kernel_size] of no or of more than two sizes, all odd, is accepted
    as well: neither flag is set and [init_params] builds no layer. *)
Lemma other_arity_builds_nothing oc ks st dl pd g b pm sc sr mlo mbd self x :
  __init__ oc ks st dl pd g b pm sc sr mlo mbd = OK self ->
  arity ks <> 1 -> arity ks <> 2 ->
  init_params x self = (self, OK tt).
Proof.
  intros H N1 N2. apply init_flags in H. destruct H as (_ & H1 & H2 & _).
  apply Z.eqb_neq in N1, N2. rewrite N1 in H1. rewrite N2 in H2.
  unfold init_params, bind, get. rewrite H1. cbn. rewrite H2. reflexivity.
Qed.

(** Sinc filters with a pair of kernel sizes: the error message cannot be
    built, and the construction stops all the same. *)
Lemma sinc_with_pair_raises oc ks st dl pd g b pm sr mlo mbd :
  arity ks = 2 ->
  exists e, __init__ oc ks st dl pd g b pm true sr mlo mbd = Raise e.
Proof.
  intros Ha. rewrite init_unfold, Ha. cbn.
  destruct (check_odd _ _); eauto.
Qed.

(** C9.  The constructor called with the pair (4, 3): the check finds the
    even size, and formatting the message of its [ValueError] from a tuple
    of two elements raises [TypeError] instead. *)
Theorem even_kernel_pair_raises_TypeError :
  __init__ 25 (PyTuple [4; 3]) [1; 1] [1; 1] true 1 true reflect false
    16000 50 50
  = Raise TypeError.
Proof. reflexivity. Qed.

(** What holds of the check: an even size in an [int], a 1-tuple or a list
    raises [ValueError], and odd sizes construct the object. *)
Lemma even_kernel_raises_ValueError oc ks st dl pd g b pm sc sr mlo mbd :
  (forall l, ks = PyTuple l -> (length l <= 1)%nat) ->
  Exists (fun n => n mod 2 = 0) (kernel_sizes ks) ->
  __init__ oc ks st dl pd g b pm sc sr mlo mbd = Raise ValueError.
Proof.
  intros Hl H. rewrite init_even_raises by assumption.
  destruct ks as [n | [|n [|m l]] | l]; try reflexivity.
  specialize (Hl _ eq_refl). cbn in Hl. lia.
Qed.

Lemma odd_kernel_constructs oc ks st dl pd g b pm sr mlo mbd :
  Forall (fun n => n mod 2 <> 0) (kernel_sizes ks) ->
  __init__ oc ks st dl pd g b pm false sr mlo mbd =
  OK (constructed oc ks st dl pd g b pm false sr mlo mbd).
Proof. intros H. apply init_succeeds; auto. Qed.

(** ** Indexing *)

Lemma getitem_0 a l : seq_getitem (a :: l) 0 = OK a.
Proof.
  unfold seq_getitem. cbn [length Z.ltb Z.compare].
  replace (0 <? Z.of_nat (S (length l))) with true
    by (symmetry; apply Z.ltb_lt; lia).
  reflexivity.
Qed.

Lemma getitem_1 a b l : seq_getitem (a :: b :: l) 1 = OK b.
Proof.
  unfold seq_getitem. cbn [length Z.ltb Z.compare].
  replace (1 <? Z.of_nat (S (S (length l)))) with true
    by (symmetry; apply Z.ltb_lt; lia).
  reflexivity.
Qed.

Lemma getitem_2 a b c l : seq_getitem (a :: b :: c :: l) 2 = OK c.
Proof.
  unfold seq_getitem. cbn [length Z.ltb Z.compare].
  replace (2 <? Z.of_nat (S (S (S (length l))))) with true
    by (symmetry; apply Z.ltb_lt; lia).
  reflexivity.
Qed.

Lemma getitem_3 a b c d l : seq_getitem (a :: b :: c :: d :: l) 3 = OK d.
Proof.
  unfold seq_getitem. cbn [length Z.ltb Z.compare].
  replace (3 <? Z.of_nat (S (S (S (S (length l)))))) with true
    by (symmetry; apply Z.ltb_lt; lia).
  reflexivity.
Qed.

Lemma getitem_short_2 a b : seq_getitem [a; b] 2 = Raise IndexError.
Proof. reflexivity. Qed.

Lemma getitem_short_3 a b c : seq_getitem [a; b; c] 3 = Raise IndexError.
Proof. reflexivity. Qed.

Lemma getitem_last_1 a : seq_getitem [a] (-1) = OK a.
Proof. reflexivity. Qed.

Lemma getitem_last_2 a b : seq_getitem [a; b] (-1) = OK b.
Proof. reflexivity. Qed.

Lemma getitem_last_3 a b c : seq_getitem [a; b; c] (-1) = OK c.
Proof. reflexivity. Qed.

Lemma getitem_last_4 a b c d : seq_getitem [a; b; c; d] (-1) = OK d.
Proof. reflexivity. Qed.

Lemma getitem_before_last_2 a b : seq_getitem [a; b] (-2) = OK a.
Proof. reflexivity. Qed.

Create Rewrite HintDb getitem.

#[global] Hint Rewrite getitem_0 getitem_1 getitem_2 getitem_3
  getitem_short_2 getitem_short_3 getitem_last_1 getitem_last_2
  getitem_last_3 getitem_last_4 getitem_before_last_2 : getitem.

#[local] Arguments seq_getitem : simpl never.

(** ** Lazy initialisation *)

Lemma manage_padding_reads {B} (f : Conv -> B) x ks dl st :
  preserves f (_manage_padding x ks dl st).
Proof. unfold _manage_padding. frame. Qed.

Lemma get_sinc_filters_reads {B} (f : Conv -> B) :
  preserves f _get_sinc_filters.
Proof. unfold _get_sinc_filters. frame. Qed.

(** After its first step [forward] only reads the object. *)
Lemma forward_state {B} (f : Conv -> B) x s :
  f (fst (forward x true s)) = f (fst (init_params x s)).
Proof.
  unfold forward. cbn [when]. apply fst_bind_preserves. intros _.
  frame; first [apply manage_padding_reads | apply get_sinc_filters_reads].
Qed.

Ltac unfold_monad :=
  unfold bind, get, getattr, assign, lift, when, ret.

Ltac run_results :=
  repeat match goal with
    | |- context [match ?r with OK _ => _ | Raise _ => _ end] =>
        destruct r; cbn
    end.

Lemma init_conv1d_in_channels x s :
  in_channels (fst (_init_conv1d x s)) =
  match x with
  | [_; _] => Some 1
  | [_; _; c] => Some c
  | [_; _; c; f] => Some (c * f)
  | _ => in_channels (fst (_init_conv1d x s))
  end.
Proof.
  destruct x as [|x0 [|x1 [|x2 [|x3 [|x4 x]]]]]; try reflexivity;
    unfold _init_conv1d; unfold_monad; cbn; autorewrite with getitem; cbn;
    run_results; reflexivity.
Qed.

Lemma init_sinc_conv_in_channels x s :
  in_channels (fst (_init_sinc_conv x s)) =
  in_channels (fst (_init_conv1d x s)).
Proof.
  unfold _init_sinc_conv. apply fst_bind_preserves. intros _. frame.
Qed.

Lemma init_conv2d_in_channels x s :
  in_channels (fst (_init_conv2d x s)) =
  match x with
  | [_; _; _] => Some 1
  | [_; _; _; c] => Some c
  | _ => in_channels (fst (_init_conv2d x s))
  end.
Proof.
  destruct x as [|x0 [|x1 [|x2 [|x3 [|x4 x]]]]]; try reflexivity;
    unfold _init_conv2d; unfold_monad; cbn; autorewrite with getitem; cbn;
    run_results; reflexivity.
Qed.

(** C6.  The constructor leaves [in_channels] unset; after the first call
    with [init_params=True] the channel count has been read off the input:
    in 1D mode 1 for a rank-2 input, [shape[2]] for rank 3 and
    [shape[2] * shape[3]] for rank 4; in 2D mode 1 for rank 3 and
    [shape[3]] for rank 4. *)
Theorem in_channels_inferred oc ks st dl pd g b pm sc sr mlo mbd self :
  __init__ oc ks st dl pd g b pm sc sr mlo mbd = OK self ->
  in_channels self = None /\
  (arity ks = 1 ->
   (forall B T,
      in_channels (fst (forward [B; T] true self)) = Some 1) /\
   (forall B T C,
      in_channels (fst (forward [B; T; C] true self)) = Some C) /\
   (forall B T C F,
      in_channels (fst (forward [B; T; C; F] true self)) = Some (C * F))) /\
  (arity ks = 2 ->
   (forall B T F,
      in_channels (fst (forward [B; T; F] true self)) = Some 1) /\
   (forall B T F C,
      in_channels (fst (forward [B; T; F; C] true self)) = Some C)).
Proof.
  intros H.
  assert (Hnone : in_channels self = None)
    by (apply init_inversion in H; destruct H as (_ & _ & ->); reflexivity).
  apply init_flags in H. destruct H as (Hs & H1 & H2 & _).
  split; [exact Hnone|].
  split; intros Ha; rewrite Ha in *; cbn in H1, H2.
  - repeat split; intros; rewrite forward_state, init_params_1d by assumption;
      destruct (sinc_conv self);
      rewrite ?init_sinc_conv_in_channels, init_conv1d_in_channels;
      reflexivity.
  - repeat split; intros;
      rewrite forward_state, init_params_2d, init_conv2d_in_channels
        by assumption; reflexivity.
Qed.

Lemma in_channels_inferred_witness :
  __init__ 25 (PyTuple [11]) [1; 1] [1; 1] true 1 true reflect false
    16000 50 50
  = OK (constructed 25 (PyTuple [11]) [1; 1] [1; 1] true 1 true reflect
          false 16000 50 50) /\
  in_channels
    (fst (forward [10; 100; 40; 128] true
            (constructed 25 (PyTuple [11]) [1; 1] [1; 1] true 1 true reflect
               false 16000 50 50)))
  = Some (40 * 128).
Proof.
  assert (H : __init__ 25 (PyTuple [11]) [1; 1] [1; 1] true 1 true reflect
                false 16000 50 50
              = OK (constructed 25 (PyTuple [11]) [1; 1] [1; 1] true 1 true
                      reflect false 16000 50 50)) by reflexivity.
  split; [exact H|].
  destruct (in_channels_inferred _ _ _ _ _ _ _ _ _ _ _ _ _ H)
    as (_ & H1 & _).
  destruct (H1 eq_refl) as (_ & _ & H4). apply H4.
Defined.

(** ** The 2D initialiser exchanges the axes *)

Lemma init_conv2d_swaps x s k1 k2 s1 s2 d1 d2 :
  (length x = 3 \/ length x = 4)%nat ->
  kernel_size s = PyTuple [k1; k2] \/ kernel_size s = PyList [k1; k2] ->
  stride s = [s1; s2] ->
  dilation s = [d1; d2] ->
  kernel_size (fst (_init_conv2d x s)) = PyTuple [k2; k1] /\
  stride (fst (_init_conv2d x s)) = [s2; s1] /\
  dilation (fst (_init_conv2d x s)) = [d2; d1].
Proof.
  intros Hx Hk Hs Hd.
  assert (K1 : py_getitem (kernel_size s) 1 = OK k2)
    by (destruct Hk as [-> | ->]; cbn; autorewrite with getitem; reflexivity).
  assert (K0 : py_getitem (kernel_size s) 0 = OK k1)
    by (destruct Hk as [-> | ->]; cbn; autorewrite with getitem; reflexivity).
  destruct x as [|x0 [|x1 [|x2 [|x3 [|x4 x]]]]]; cbn in Hx;
    try (exfalso; lia);
    unfold _init_conv2d; unfold_monad; cbn; autorewrite with getitem; cbn;
    rewrite K1, K0, Hs; cbn; autorewrite with getitem; cbn;
    rewrite Hd; cbn; autorewrite with getitem; cbn;
    run_results; auto.
Qed.

Lemma init_conv2d_keeps_flags x :
  preserves (fun s => (conv1d s, conv2d s)) (_init_conv2d x).
Proof. unfold _init_conv2d. frame. Qed.

(** The attributes set by the constructor, apart from the three that
    [_init_conv2d] exchanges. *)
Lemma init_conv2d_keeps_configuration x :
  preserves
    (fun s => (out_channels s, padding s, groups s, bias s, padding_mode s,
               sinc_conv s, sample_rate s, min_low_hz s, min_band_hz s))
    (_init_conv2d x).
Proof. unfold _init_conv2d. frame. Qed.

(** C10.  In 2D mode [init_params] replaces [kernel_size], [stride] and
    [dilation] by their pairs in reverse order and leaves the other
    attributes given to the constructor as they were; a second call
    exchanges the pairs again and so brings back the original order. *)
Theorem init_params_2d_swaps_pairs
  oc ks k1 k2 s1 s2 d1 d2 pd g b pm sc sr mlo mbd self x x' :
  kernel_sizes ks = [k1; k2] ->
  __init__ oc ks [s1; s2] [d1; d2] pd g b pm sc sr mlo mbd = OK self ->
  (length x = 3 \/ length x = 4)%nat ->
  (length x' = 3 \/ length x' = 4)%nat ->
  let once := fst (init_params x self) in
  let twice := fst (init_params x' once) in
  (kernel_size once = PyTuple [k2; k1] /\
   stride once = [s2; s1] /\
   dilation once = [d2; d1]) /\
  (out_channels once, padding once, groups once, bias once,
   padding_mode once, sinc_conv once, sample_rate once, min_low_hz once,
   min_band_hz once)
  = (oc, pd, g, b, pm, sc, sr, mlo, mbd) /\
  (kernel_size twice = PyTuple [k1; k2] /\
   stride twice = [s1; s2] /\
   dilation twice = [d1; d2]).
Proof.
  intros Hk H Hx Hx'. cbv zeta.
  pose proof (init_flags _ _ _ _ _ _ _ _ _ _ _ _ _ H) as (_ & H1 & H2 & _).
  apply init_inversion in H. destruct H as (_ & _ & ->).
  assert (Ha : arity ks = 2) by (unfold arity; rewrite Hk; reflexivity).
  rewrite Ha in H1, H2. cbn in H1, H2.
  set (self := constructed oc ks [s1; s2] [d1; d2] pd g b pm sc sr mlo mbd)
    in *.
  assert (Hks : kernel_size self = PyTuple [k1; k2]
                \/ kernel_size self = PyList [k1; k2]).
  { subst self. unfold constructed.
    destruct ks as [n | l | l]; cbn in Hk |- *;
      [discriminate | left | right]; rewrite Hk; reflexivity. }
  rewrite (init_params_2d x self) by assumption.
  destruct (init_conv2d_swaps x self k1 k2 s1 s2 d1 d2 Hx Hks eq_refl eq_refl)
    as (E1 & E2 & E3).
  pose proof (init_conv2d_keeps_flags x self) as F. cbn in F.
  rewrite H1, H2 in F. injection F as F1 F2.
  split; [auto|]. split.
  - apply (init_conv2d_keeps_configuration x self).
  - rewrite init_params_2d by assumption.
    apply init_conv2d_swaps; auto.
Qed.

Lemma init_params_2d_swaps_pairs_witness :
  kernel_size
    (fst (init_params [10; 100; 40; 128]
            (constructed 25 (PyTuple [11; 5]) [1; 2] [1; 3] true 1 true
               reflect false 16000 50 50)))
  = PyTuple [5; 11].
Proof.
  assert (H : __init__ 25 (PyTuple [11; 5]) [1; 2] [1; 3] true 1 true reflect
                false 16000 50 50
              = OK (constructed 25 (PyTuple [11; 5]) [1; 2] [1; 3] true 1 true
                      reflect false 16000 50 50)) by reflexivity.
  apply (init_params_2d_swaps_pairs 25 (PyTuple [11; 5]) 11 5 1 2 1 3 true 1
           true reflect false 16000 50 50 _ [10; 100; 40; 128]
           [10; 100; 40; 128] eq_refl H (or_intror eq_refl)
           (or_intror eq_refl)).
Defined.

(** ** Padding arithmetic *)

Lemma py_int_integer q z : (q == inject_Z z)%Q -> py_int q = z.
Proof.
  intros E. unfold py_int.
  destruct (Qle_bool 0 q);
    [rewrite (Qfloor_comp _ _ E); apply Qfloor_Z
    | rewrite (Qceiling_comp _ _ E); apply Qceiling_Z].
Qed.

(** With stride one the amount does not depend on the length. *)
Lemma get_padding_elem_stride1 L k d :
  _get_padding_elem L 1 k d = OK [d * (k - 1) / 2; d * (k - 1) / 2].
Proof.
  unfold _get_padding_elem, py_truediv. cbn [Z.ltb Z.compare Z.eqb rbind].
  rewrite (py_int_integer _ (L - d * (k - 1))).
  - replace (L - (L - d * (k - 1))) with (d * (k - 1)) by lia. reflexivity.
  - unfold Qeq, Qdiv, Qplus, Qmult, Qinv, inject_Z. cbn. lia.
Qed.

(** With a larger stride it is half the kernel on either side. *)
Lemma get_padding_elem_strided L s k d :
  1 < s -> _get_padding_elem L s k d = OK [k / 2; k / 2].
Proof.
  intros H. unfold _get_padding_elem, py_truediv.
  replace (s =? 0) with false by (symmetry; apply Z.eqb_neq; lia).
  apply Z.ltb_lt in H as ->. reflexivity.
Qed.

(** ** Shapes through the library *)

Lemma pad_3d B C T pl pr pm :
  C <> 0 ->
  pad [B; C; T] [pl; pr] pm
  = (T' <~ pad_dim pm T pl pr; OK [B; C; T'])%res.
Proof.
  intros HC. apply Z.eqb_neq in HC. unfold pad, leading_dims.
  cbn [length Nat.div2 Nat.sub firstn Nat.eqb andb orb]. rewrite HC.
  cbn [negb rev app pad_dims].
  destruct pm; destruct (pad_dim _ T pl pr); reflexivity.
Qed.

Lemma pad_4d B C F T pl pr ql qr pm :
  C <> 0 ->
  pad [B; C; F; T] [pl; pr; ql; qr] pm
  = (T' <~ pad_dim pm T pl pr; F' <~ pad_dim pm F ql qr;
     OK [B; C; F'; T'])%res.
Proof.
  intros HC. apply Z.eqb_neq in HC. unfold pad, leading_dims.
  cbn [length Nat.div2 Nat.sub firstn Nat.eqb andb orb]. rewrite HC.
  cbn [negb rev app pad_dims].
  destruct pm; destruct (pad_dim _ T pl pr); try reflexivity;
    cbn [rbind]; destruct (pad_dim _ F ql qr); reflexivity.
Qed.

(** ** Symbolic execution of [forward] *)

Lemma getitem_single ks k i :
  kernel_sizes ks = [k] -> i = 0 \/ i = -1 ->
  py_getitem (as_sequence ks) i = OK k.
Proof.
  intros H Hi. destruct ks as [n | l | l]; cbn in H |- *;
    injection H as ->|| rewrite H; destruct Hi as [-> | ->]; reflexivity.
Qed.

#[local] Arguments py_getitem : simpl never.
#[local] Arguments _get_padding_elem : simpl never.
#[local] Arguments pad_dim : simpl never.
#[local] Arguments conv_out_len : simpl never.
#[local] Arguments check_channels : simpl never.
#[local] Arguments Z.mul : simpl never.
#[local] Arguments Z.eqb : simpl nomatch.

Ltac exec := repeat (progress (cbn; autorewrite with getitem)).

(** [forward] with [init_params=True] is the initialisation followed by a
    plain call. *)
Lemma forward_after_init x s s' :
  init_params x s = (s', OK tt) -> forward x true s = forward x false s'.
Proof.
  intros H. unfold forward. cbn [when]. unfold bind at 1. rewrite H.
  reflexivity.
Qed.

Lemma init_conv1d_run s x k s0 d0 cin m :
  match x with
  | [_; _] => cin = 1
  | [_; _; c] => cin = c
  | [_; _; c; f] => cin = c * f
  | _ => False
  end ->
  py_getitem (kernel_size s) 0 = OK k ->
  seq_getitem (stride s) 0 = OK s0 ->
  seq_getitem (dilation s) 0 = OK d0 ->
  nn_Conv1d cin (out_channels s) k s0 d0 (groups s) (bias s) = OK m ->
  _init_conv1d x s =
  (set_conv (Some m)
     (match x with
      | [_; _] => set_in_channels (Some 1) (set_unsqueeze true s)
      | [_; _; _] => set_in_channels (Some cin) s
      | _ => set_in_channels (Some cin) (set_reshape_conv1d true s)
      end),
   OK tt).
Proof.
  intros Hx K0 Hs Hd Hm.
  destruct x as [|x0 [|x1 [|x2 [|x3 [|x4 x]]]]]; try contradiction; subst cin;
    unfold _init_conv1d; unfold_monad; exec; rewrite K0, Hs, Hd; exec;
    rewrite Hm; reflexivity.
Qed.

(** A call on an initialised 1D layer: the input is (batch, time) when the
    layer unsqueezes and (batch, time, channels) otherwise. *)
Lemma forward_run_1d s B T rest cin oc k s0 d0 g b sl dl Tp T' :
  (length rest <= 1)%nat ->
  1 <= oc -> cin <> 0 ->
  reshape_conv1d s = false ->
  unsqueeze s = match rest with [] => true | _ => false end ->
  cin = hd 1 rest ->
  sinc_conv s = false ->
  conv2d s = false ->
  conv s = Some (Conv1d cin oc k s0 d0 g b) ->
  py_getitem (kernel_size s) (-1) = OK k ->
  seq_getitem (stride s) (-1) = OK sl ->
  seq_getitem (dilation s) (-1) = OK dl ->
  padded_axis (padding s) (padding_mode s) T T sl k dl = OK Tp ->
  conv_out_len Tp k s0 d0 = OK T' ->
  snd (forward (B :: T :: rest) false s)
  = OK (match rest with
        | [] => if oc =? 1 then [B; T'] else [B; T'; oc]
        | _ => [B; T'; oc]
        end).
Proof.
  intros Hrest Hoc Hcin0 Hrc Hus Hcin Hsc Hc2 Hconv K1 Hsl Hdl Hpad Hlen.
  unfold padded_axis in Hpad.
  pose proof (proj2 (Z.leb_le 1 oc) Hoc) as Hoc'.
  destruct rest as [|C [|C' rest]]; [| |cbn in Hrest; lia]; cbn [hd] in Hcin;
    subst cin; pose proof (proj2 (Z.eqb_neq _ 0) Hcin0) as Hcin0';
    unfold forward, _manage_padding; unfold_monad; exec;
    rewrite Hrc, Hus; exec; destruct (padding s); exec;
    rewrite ?Hsl, ?K1, ?Hdl; exec.
  - destruct (_get_padding_elem T sl k dl) as [[|pl [|pr [|]]]|];
      try discriminate; cbn in Hpad. exec. rewrite Hc2. exec.
    rewrite pad_3d, Hpad by exact Hcin0. exec. rewrite Hsc, Hconv. exec.
    rewrite Hoc', Hlen. exec. destruct (oc =? 1); reflexivity.
  - injection Hpad as ->. rewrite Hsc, Hconv. exec. rewrite Hoc', Hlen. exec.
    destruct (oc =? 1); reflexivity.
  - destruct (_get_padding_elem T sl k dl) as [[|pl [|pr [|]]]|];
      try discriminate; cbn in Hpad. exec. rewrite Hc2. exec.
    rewrite pad_3d, Hpad by exact Hcin0. exec. rewrite Hsc, Hconv. exec.
    rewrite Hoc', Z.eqb_refl, Hlen. exec. rewrite Hcin0'. reflexivity.
  - injection Hpad as ->. rewrite Hsc, Hconv. exec.
    rewrite Hoc', Z.eqb_refl, Hlen. exec. rewrite Hcin0'. reflexivity.
Qed.

Lemma nn_Conv1d_OK cin oc k s d g b :
  check_channels cin oc g = OK tt -> 0 <= k ->
  nn_Conv1d cin oc k s d g b = OK (Conv1d cin oc k s d g b).
Proof.
  intros H Hk. unfold nn_Conv1d. rewrite H. cbn.
  apply Z.leb_le in Hk. rewrite Hk. reflexivity.
Qed.

Lemma forward_1d_shape
  oc ks k sts dls s0 d0 sl dl pd g b pm sr mlo mbd B T rest Tp T' :
  kernel_sizes ks = [k] -> k mod 2 <> 0 -> 0 <= k ->
  seq_getitem sts 0 = OK s0 -> seq_getitem sts (-1) = OK sl ->
  seq_getitem dls 0 = OK d0 -> seq_getitem dls (-1) = OK dl ->
  (length rest <= 1)%nat ->
  1 <= oc -> hd 1 rest <> 0 ->
  check_channels (hd 1 rest) oc g = OK tt ->
  padded_axis pd pm T T sl k dl = OK Tp ->
  conv_out_len Tp k s0 d0 = OK T' ->
  snd (forward (B :: T :: rest) true
         (constructed oc ks sts dls pd g b pm false sr mlo mbd))
  = OK (match rest with
        | [] => if oc =? 1 then [B; T'] else [B; T'; oc]
        | _ => [B; T'; oc]
        end).
Proof.
  intros Hk Hodd Hk0 Hs0 Hsl Hd0 Hdl Hrest Hoc Hcin Hch Hpad Hconv.
  assert (Ha : arity ks = 1) by (unfold arity; rewrite Hk; reflexivity).
  pose proof (getitem_single ks k 0 Hk (or_introl eq_refl)) as K0.
  pose proof (getitem_single ks k (-1) Hk (or_intror eq_refl)) as K1.
  pose proof (nn_Conv1d_OK _ _ _ s0 d0 _ b Hch Hk0) as Hm.
  set (self := constructed oc ks sts dls pd g b pm false sr mlo mbd).
  assert (F1 : conv1d self = true)
    by (subst self; unfold constructed; rewrite Ha; reflexivity).
  assert (F2 : conv2d self = false)
    by (subst self; unfold constructed; rewrite Ha; reflexivity).
  erewrite forward_after_init.
  2:{ rewrite init_params_1d by assumption. change (sinc_conv self) with false.
      cbv iota.
      apply (init_conv1d_run self (B :: T :: rest) k s0 d0 (hd 1 rest));
        try assumption; [|exact Hm].
      destruct rest as [|C [|C' rest]]; cbn in Hrest |- *; try reflexivity.
      lia. }
  apply (forward_run_1d _ B T rest (hd 1 rest) oc k s0 d0 g b sl dl Tp T');
    try assumption; try reflexivity;
    destruct rest as [|C [|C' rest]]; cbn in Hrest |- *;
    try reflexivity; try assumption; try lia.
Qed.

Lemma getitem_pair ks k0 k1 :
  kernel_sizes ks = [k0; k1] ->
  py_getitem (as_sequence ks) 0 = OK k0 /\
  py_getitem (as_sequence ks) 1 = OK k1.
Proof.
  intros H. destruct ks as [n | l | l]; cbn in H |- *;
    [discriminate | rewrite H | rewrite H]; split; reflexivity.
Qed.

Lemma py_getitem_tuple l i : py_getitem (PyTuple l) i = seq_getitem l i.
Proof. reflexivity. Qed.

Lemma init_conv2d_run s x k0 k1 s0 s1 d0 d1 cin m :
  match x with
  | [_; _; _] => cin = 1
  | [_; _; _; c] => cin = c
  | _ => False
  end ->
  py_getitem (kernel_size s) 0 = OK k0 ->
  py_getitem (kernel_size s) 1 = OK k1 ->
  stride s = [s0; s1] ->
  dilation s = [d0; d1] ->
  nn_Conv2d cin (out_channels s) [k1; k0] [s1; s0] [d1; d0] (groups s)
    (bias s) = OK m ->
  _init_conv2d x s =
  (set_conv (Some m)
     (set_dilation [d1; d0]
        (set_stride [s1; s0]
           (set_kernel_size (PyTuple [k1; k0])
              (match x with
               | [_; _; _] => set_in_channels (Some 1) (set_unsqueeze true s)
               | _ => set_in_channels (Some cin) s
               end)))),
   OK tt).
Proof.
  intros Hx K0 K1 Hs Hd Hm.
  destruct x as [|x0 [|x1 [|x2 [|x3 [|x4 x]]]]]; try contradiction; subst cin;
    unfold _init_conv2d; unfold_monad; exec; rewrite K1, K0; exec;
    rewrite Hs; exec; rewrite Hd; exec; rewrite Hm; reflexivity.
Qed.

(** A call on an initialised 2D layer, whose attributes hold the pairs in
    (frequency, time) order: the input is (batch, time, frequency) when the
    layer unsqueezes and (batch, time, frequency, channels) otherwise. *)
Lemma forward_run_2d s B T F rest cin oc kt kf st sf dt df g b Tp Fp T' F' :
  (length rest <= 1)%nat ->
  1 <= oc -> cin <> 0 ->
  reshape_conv1d s = false ->
  unsqueeze s = match rest with [] => true | _ => false end ->
  cin = hd 1 rest ->
  sinc_conv s = false ->
  conv2d s = true ->
  conv s = Some (Conv2d cin oc [kf; kt] [sf; st] [df; dt] g b) ->
  kernel_size s = PyTuple [kf; kt] ->
  stride s = [sf; st] ->
  dilation s = [df; dt] ->
  padded_axis (padding s) (padding_mode s) T T st kt dt = OK Tp ->
  padded_axis (padding s) (padding_mode s) T F sf kf df = OK Fp ->
  conv_out_len Tp kt st dt = OK T' ->
  conv_out_len Fp kf sf df = OK F' ->
  snd (forward (B :: T :: F :: rest) false s)
  = OK (match rest with
        | [] => if oc =? 1 then [B; T'; F'] else [B; T'; F'; oc]
        | _ => [B; T'; F'; oc]
        end).
Proof.
  intros Hrest Hoc Hcin0 Hrc Hus Hcin Hsc Hc2 Hconv Hks Hst Hdl Hpt Hpf Hct
    Hcf.
  unfold padded_axis in Hpt, Hpf.
  pose proof (proj2 (Z.leb_le 1 oc) Hoc) as Hoc'.
  destruct rest as [|C [|C' rest]]; [| |cbn in Hrest; lia]; cbn [hd] in Hcin;
    subst cin; pose proof (proj2 (Z.eqb_neq _ 0) Hcin0) as Hcin0';
    unfold forward, _manage_padding; unfold_monad; exec;
    rewrite Hrc, Hus; exec; destruct (padding s); exec;
    rewrite ?Hks, ?Hst, ?Hdl, ?py_getitem_tuple; exec.
  - destruct (_get_padding_elem T st kt dt) as [[|pl [|pr [|]]]|];
      try discriminate; cbn in Hpt. exec. rewrite Hc2. exec.
    destruct (_get_padding_elem T sf kf df) as [[|ql [|qr [|]]]|];
      try discriminate; cbn in Hpf. exec.
    rewrite pad_4d, Hpt, Hpf by exact Hcin0. exec. rewrite Hsc, Hconv. exec.
    rewrite Hoc', Hcf, Hct. exec. destruct (oc =? 1); reflexivity.
  - injection Hpt as ->. injection Hpf as ->. rewrite Hsc, Hconv. exec.
    rewrite Hoc', Hcf, Hct. exec. destruct (oc =? 1); reflexivity.
  - destruct (_get_padding_elem T st kt dt) as [[|pl [|pr [|]]]|];
      try discriminate; cbn in Hpt. exec. rewrite Hc2. exec.
    destruct (_get_padding_elem T sf kf df) as [[|ql [|qr [|]]]|];
      try discriminate; cbn in Hpf. exec.
    rewrite pad_4d, Hpt, Hpf by exact Hcin0. exec. rewrite Hsc, Hconv. exec.
    rewrite Hoc', Z.eqb_refl, Hcf, Hct. exec. rewrite Hcin0'. reflexivity.
  - injection Hpt as ->. injection Hpf as ->. rewrite Hsc, Hconv. exec.
    rewrite Hoc', Z.eqb_refl, Hcf, Hct. exec. rewrite Hcin0'. reflexivity.
Qed.

Lemma nn_Conv2d_OK cin oc kh kw s d g b :
  check_channels cin oc g = OK tt -> 0 <= kh -> 0 <= kw ->
  nn_Conv2d cin oc [kh; kw] s d g b = OK (Conv2d cin oc [kh; kw] s d g b).
Proof.
  intros H Hh Hw. unfold nn_Conv2d. rewrite H. cbn.
  apply Z.leb_le in Hh, Hw. rewrite Hh, Hw. reflexivity.
Qed.

Lemma forward_2d_shape
  oc ks kt kf st sf dt df pd g b pm sr mlo mbd B T F rest Tp Fp T' F' :
  kernel_sizes ks = [kt; kf] ->
  kt mod 2 <> 0 -> kf mod 2 <> 0 -> 0 <= kt -> 0 <= kf ->
  (length rest <= 1)%nat ->
  1 <= oc -> hd 1 rest <> 0 ->
  check_channels (hd 1 rest) oc g = OK tt ->
  padded_axis pd pm T T st kt dt = OK Tp ->
  padded_axis pd pm T F sf kf df = OK Fp ->
  conv_out_len Tp kt st dt = OK T' ->
  conv_out_len Fp kf sf df = OK F' ->
  snd (forward (B :: T :: F :: rest) true
         (constructed oc ks [st; sf] [dt; df] pd g b pm false sr mlo mbd))
  = OK (match rest with
        | [] => if oc =? 1 then [B; T'; F'] else [B; T'; F'; oc]
        | _ => [B; T'; F'; oc]
        end).
Proof.
  intros Hk Hot Hof Hkt Hkf Hrest Hoc Hcin Hch Hpt Hpf Hct Hcf.
  assert (Ha : arity ks = 2) by (unfold arity; rewrite Hk; reflexivity).
  destruct (getitem_pair ks kt kf Hk) as (K0 & K1).
  pose proof (nn_Conv2d_OK _ _ _ _ [sf; st] [df; dt] _ b Hch Hkf Hkt) as Hm.
  set (self := constructed oc ks [st; sf] [dt; df] pd g b pm false sr mlo mbd).
  assert (F1 : conv1d self = false)
    by (subst self; unfold constructed; rewrite Ha; reflexivity).
  assert (F2 : conv2d self = true)
    by (subst self; unfold constructed; rewrite Ha; reflexivity).
  erewrite forward_after_init.
  2:{ rewrite init_params_2d by assumption.
      apply (init_conv2d_run self (B :: T :: F :: rest) kt kf st sf dt df
               (hd 1 rest)); try assumption; try reflexivity; [|exact Hm].
      destruct rest as [|C [|C' rest]]; cbn in Hrest |- *; try reflexivity.
      lia. }
  apply (forward_run_2d _ B T F rest (hd 1 rest) oc kt kf st sf dt df g b
           Tp Fp T' F');
    try assumption; try reflexivity;
    destruct rest as [|C [|C' rest]]; cbn in Hrest |- *;
    try reflexivity; try assumption; try lia.
Qed.

(** ** Output lengths *)

Lemma half_of_even_span k d :
  k mod 2 <> 0 -> 2 * (d * (k - 1) / 2) = d * (k - 1).
Proof.
  intros H.
  assert (E : (d * (k - 1)) mod 2 = 0).
  { rewrite <- Z.mul_mod_idemp_r by lia.
    replace ((k - 1) mod 2) with 0; [rewrite Z.mul_0_r; reflexivity|].
    pose proof (Z.mod_pos_bound k 2 ltac:(lia)).
    rewrite Zminus_mod. replace (k mod 2) with 1 by lia. reflexivity. }
  pose proof (Z.div_mod (d * (k - 1)) 2 ltac:(lia)). lia.
Qed.


(** A stride above one with dilation one leaves the ceiling of
    [L / stride] steps: the layer decimates. *)
Lemma decimated_axis pm L_in L k s :
  k mod 2 <> 0 -> 1 <= k -> 1 < s -> 1 <= L ->
  pad_dim pm L (k / 2) (k / 2) = OK (L + k / 2 + k / 2) ->
  exists Lp, padded_axis true pm L_in L s k 1 = OK Lp /\
             conv_out_len Lp k s 1 = OK ((L - 1) / s + 1).
Proof.
  intros Hodd Hk Hs HL Hpad.
  exists (L + k / 2 + k / 2). split.
  - unfold padded_axis. rewrite get_padding_elem_strided by assumption.
    exact Hpad.
  - pose proof (half_of_even_span k 1 Hodd) as E.
    replace (1 * (k - 1) / 2) with (k / 2) in E.
    2:{ rewrite Z.mul_1_l.
        pose proof (Z.mod_pos_bound k 2 ltac:(lia)).
        pose proof (Z.div_mod k 2 ltac:(lia)).
        pose proof (Z.div_mod (k - 1) 2 ltac:(lia)).
        pose proof (Z.mod_pos_bound (k - 1) 2 ltac:(lia)). lia. }
    unfold conv_out_len.
    replace (1 <=? k) with true by (symmetry; apply Z.leb_le; lia).
    replace (1 <=? s) with true by (symmetry; apply Z.leb_le; lia).
    replace (1 * (k - 1) + 1 <=? L + k / 2 + k / 2)
      with true by (symmetry; apply Z.leb_le; lia).
    cbn [andb].
    replace (L + k / 2 + k / 2 - 1 * (k - 1) - 1) with (L - 1) by lia.
    reflexivity.
Qed.

(** A 1D layer with a stride above one and dilation one returns the
    ceiling of [T / stride] frames. *)
Lemma forward_1d_decimates oc ks k s g b pm sr mlo mbd B T C :
  kernel_sizes ks = [k] -> k mod 2 <> 0 -> 1 <= k -> 1 < s -> 1 <= T ->
  1 <= oc -> C <> 0 ->
  check_channels C oc g = OK tt ->
  pad_dim pm T (k / 2) (k / 2) = OK (T + k / 2 + k / 2) ->
  snd (forward [B; T; C] true
         (constructed oc ks [s] [1] true g b pm false sr mlo mbd))
  = OK [B; (T - 1) / s + 1; oc].
Proof.
  intros Hk Hodd Hk1 Hs HT Hoc HC Hch Hpad.
  destruct (decimated_axis pm T T k s Hodd Hk1 Hs HT Hpad) as (Tp & Hp & Hc).
  apply (forward_1d_shape oc ks k [s] [1] s 1 s 1 true g b pm sr mlo mbd
           B T [C] Tp ((T - 1) / s + 1)); auto; try reflexivity; try lia.
Qed.

(** ** The examples of the docstring and the rank-4 input *)

(** The examples of the docstring. *)
Example doc_conv1d_tuple :
  exists self,
    Conv_default 25 (PyTuple [11]) = OK self /\
    snd (forward [10; 16000; 1] true self) = OK [10; 16000; 25].
Proof. eexists. split; reflexivity. Qed.

Example doc_conv1d_int :
  exists self,
    Conv_default 25 (PyInt 11) = OK self /\
    snd (forward [10; 16000; 1] true self) = OK [10; 16000; 25].
Proof. eexists. split; reflexivity. Qed.

Example doc_conv2d :
  exists self,
    Conv_default 25 (PyTuple [11; 5]) = OK self /\
    snd (forward [10; 100; 40; 128] true self) = OK [10; 100; 40; 25].
Proof. eexists. split; reflexivity. Qed.

Example doc_sinc_conv :
  exists self,
    __init__ 8 (PyTuple [129]) [1; 1] [1; 1] true 1 true reflect true
      16000 50 50 = OK self /\
    snd (forward [10; 4000] true self) = OK [10; 4000; 8].
Proof. eexists. split; [reflexivity | lazy; reflexivity]. Qed.

(** An input without a channel gives an output without one, and a layer
    without an output channel cannot convolve. *)
Example no_input_channel :
  exists self,
    __init__ 2 (PyTuple [3]) [1; 1] [1; 1] false 1 true reflect false
      16000 50 50 = OK self /\
    snd (forward [3; 20; 0] true self) = OK [3; 18; 0].
Proof. eexists. split; reflexivity. Qed.

Example no_output_channel :
  exists self,
    __init__ 0 (PyTuple [3]) [1; 1] [1; 1] false 1 true reflect false
      16000 50 50 = OK self /\
    snd (forward [3; 20; 2] true self) = Raise RuntimeError.
Proof. eexists. split; reflexivity. Qed.

(** A rank-4 input to a 1D layer is folded to rank 3 before the
    convolution; unfolding the result reads a fourth dimension of a rank-3
    tensor. *)
Lemma forward_run_1d_rank4 s B T C F oc k s0 d0 g b sl dl Tp T' :
  0 <= B -> 0 <= T -> 1 <= C -> 1 <= F -> 1 <= oc ->
  reshape_conv1d s = true ->
  unsqueeze s = false ->
  sinc_conv s = false ->
  conv2d s = false ->
  conv s = Some (Conv1d (C * F) oc k s0 d0 g b) ->
  py_getitem (kernel_size s) (-1) = OK k ->
  seq_getitem (stride s) (-1) = OK sl ->
  seq_getitem (dilation s) (-1) = OK dl ->
  padded_axis (padding s) (padding_mode s) T T sl k dl = OK Tp ->
  conv_out_len Tp k s0 d0 = OK T' ->
  snd (forward [B; T; C; F] false s) = Raise IndexError.
Proof.
  intros HB HT HC HF Hoc Hrc Hus Hsc Hc2 Hconv K1 Hsl Hdl Hpad Hlen.
  unfold padded_axis in Hpad.
  pose proof (proj2 (Z.leb_le 1 oc) Hoc) as Hoc'.
  assert (Hfc : F * C <> 0) by nia.
  assert (Hre : reshape [B; F; C; T] [B; F * C; T] = OK [B; F * C; T]).
  { unfold reshape, numel. cbn [forallb fold_right].
    replace (0 <=? B) with true by (symmetry; apply Z.leb_le; lia).
    replace (0 <=? F * C) with true by (symmetry; apply Z.leb_le; nia).
    replace (0 <=? T) with true by (symmetry; apply Z.leb_le; lia).
    replace (B * (F * (C * (T * 1))) =? B * (F * C * (T * 1))) with true
      by (symmetry; apply Z.eqb_eq; ring).
    reflexivity. }
  assert (Hcin : (F * C =? C * F) = true) by (apply Z.eqb_eq; ring).
  unfold forward, _manage_padding; unfold_monad; exec.
  rewrite Hrc. exec. rewrite Hre. exec. rewrite Hus. exec.
  destruct (padding s); exec; rewrite ?Hsl, ?K1, ?Hdl; exec.
  - destruct (_get_padding_elem T sl k dl) as [[|pl [|pr [|]]]|];
      try discriminate; cbn in Hpad. exec. rewrite Hc2. exec.
    rewrite pad_3d, Hpad by exact Hfc. exec. rewrite Hsc, Hconv. exec.
    rewrite Hoc', Hcin, Hlen. reflexivity.
  - injection Hpad as ->. rewrite Hsc, Hconv. exec.
    rewrite Hoc', Hcin, Hlen. reflexivity.
Qed.

Lemma forward_1d_rank4_raises
  oc ks k sts dls s0 d0 sl dl pd g b pm sr mlo mbd B T C F Tp T' :
  kernel_sizes ks = [k] -> k mod 2 <> 0 -> 0 <= k ->
  seq_getitem sts 0 = OK s0 -> seq_getitem sts (-1) = OK sl ->
  seq_getitem dls 0 = OK d0 -> seq_getitem dls (-1) = OK dl ->
  0 <= B -> 0 <= T -> 1 <= C -> 1 <= F -> 1 <= oc ->
  check_channels (C * F) oc g = OK tt ->
  padded_axis pd pm T T sl k dl = OK Tp ->
  conv_out_len Tp k s0 d0 = OK T' ->
  snd (forward [B; T; C; F] true
         (constructed oc ks sts dls pd g b pm false sr mlo mbd))
  = Raise IndexError.
Proof.
  intros Hk Hodd Hk0 Hs0 Hsl Hd0 Hdl HB HT HC HF Hoc Hch Hpad Hconv.
  assert (Ha : arity ks = 1) by (unfold arity; rewrite Hk; reflexivity).
  pose proof (getitem_single ks k 0 Hk (or_introl eq_refl)) as K0.
  pose proof (getitem_single ks k (-1) Hk (or_intror eq_refl)) as K1.
  pose proof (nn_Conv1d_OK _ _ _ s0 d0 _ b Hch Hk0) as Hm.
  set (self := constructed oc ks sts dls pd g b pm false sr mlo mbd).
  assert (F1 : conv1d self = true)
    by (subst self; unfold constructed; rewrite Ha; reflexivity).
  assert (F2 : conv2d self = false)
    by (subst self; unfold constructed; rewrite Ha; reflexivity).
  erewrite forward_after_init.
  2:{ rewrite init_params_1d by assumption. change (sinc_conv self) with false.
      cbv iota.
      apply (init_conv1d_run self [B; T; C; F] k s0 d0 (C * F));
        try assumption; [reflexivity | exact Hm]. }
  apply (forward_run_1d_rank4 _ B T C F oc k s0 d0 g b sl dl Tp T');
    try assumption; reflexivity.
Qed.

(** ** The mel scale *)

Section RealArithmetic.

Local Open Scope R_scope.

Lemma ln_10_pos : 0 < ln 10.
Proof. rewrite <- ln_1. apply ln_increasing; lra. Qed.

Lemma to_hz_to_mel hz : -700 < hz -> _to_hz (_to_mel hz) = hz.
Proof.
  intros H. unfold _to_hz, _to_mel, Rpower.
  pose proof ln_10_pos as L.
  replace (2595 * (ln (1 + hz / 700) / ln 10) / 2595 * ln 10)
    with (ln (1 + hz / 700)) by (field; lra).
  rewrite exp_ln by lra. field.
Qed.

Lemma to_mel_to_hz mel : _to_mel (_to_hz mel) = mel.
Proof.
  unfold _to_hz, _to_mel, Rpower.
  pose proof ln_10_pos as L.
  replace (1 + 700 * (exp (mel / 2595 * ln 10) - 1) / 700)
    with (exp (mel / 2595 * ln 10)) by field.
  rewrite ln_exp. field. lra.
Qed.

(** C7.  In exact arithmetic the two conversions undo each other on the
    non-negative reals. *)
Theorem mel_conversions_inverse x :
  0 <= x ->
  _to_hz (_to_mel x) = x /\ _to_mel (_to_hz x) = x.
Proof.
  intros H. split; [apply to_hz_to_mel; lra | apply to_mel_to_hz].
Qed.

Lemma mel_conversions_inverse_witness :
  _to_hz (_to_mel 50) = 50 /\ _to_mel (_to_hz 50) = 50.
Proof. apply (mel_conversions_inverse 50). lra. Defined.

(** ** Cut-off frequencies *)

Lemma clamp_upper x lo hi : clamp x lo hi <= hi.
Proof. unfold clamp. apply Rmin_r. Qed.

Lemma Forall_map_all {A B} (P : B -> Prop) (g : A -> B) l :
  (forall x, P (g x)) -> Forall P (map g l).
Proof. intros H. induction l; constructor; auto. Qed.

Lemma bcast_Forall {A B C} (P : C -> Prop) (f : A -> B -> C) l1 l2 r :
  (forall a b, P (f a b)) -> bcast f l1 l2 = OK r -> Forall P r.
Proof.
  intros H. unfold bcast.
  destruct (length l1 =? length l2)%nat.
  - intros [= <-]. apply Forall_map_all. intros; apply H.
  - destruct l1 as [|a [|a' l1]], l2 as [|b [|b' l2]];
      intros [= <-]; cbn; repeat (constructor; [apply H|]);
      first [apply Forall_map_all; intros; apply H | constructor].
Qed.

(** C3.  Whatever the learnable parameters, every low cut-off is at least
    [min_low_hz] and every high cut-off at most half the sample rate. *)
Theorem sinc_cutoffs_bounded self low_hz band_hz high :
  sinc_high self (sinc_low self low_hz) band_hz = OK high ->
  Forall (fun l => min_low_hz self <= l) (sinc_low self low_hz) /\
  Forall (fun h => h <= IZR (sample_rate self) / 2) high.
Proof.
  intros H. split.
  - unfold sinc_low. apply Forall_forall. intros l Hl.
    apply in_map_iff in Hl as (v & <- & _).
    pose proof (Rabs_pos v). lra.
  - unfold sinc_high in H.
    apply (bcast_Forall _ _ _ _ _ (fun a b => clamp_upper _ _ _) H).
Qed.

End RealArithmetic.

Lemma sinc_cutoffs_bounded_witness :
  Forall (fun l => 50 <= l)%R
    (sinc_low (constructed 8 (PyTuple [129]) [1; 1] [1; 1] true 1 true
                 reflect true 16000 50 50) [30; -9000]%R) /\
  Forall (fun h => h <= IZR 16000 / 2)%R
    [clamp (50 + Rabs 30 + 50 + Rabs (-100)) 50 (IZR 16000 / 2);
     clamp (50 + Rabs (-9000) + 50 + Rabs 40) 50 (IZR 16000 / 2)]%R.
Proof.
  apply (sinc_cutoffs_bounded
           (constructed 8 (PyTuple [129]) [1; 1] [1; 1] true 1 true reflect
              true 16000 50 50) [30; -9000]%R [-100; 40]%R).
  reflexivity.
Defined.

(** ** Lists *)

Lemma length_linspace_points a b steps :
  length (linspace_points a b steps) = Z.to_nat steps.
Proof. unfold linspace_points. rewrite length_map, length_seq. reflexivity. Qed.

Lemma nth_linspace_points a b steps i :
  (i < Z.to_nat steps)%nat ->
  nth i (linspace_points a b steps) 0%R
  = (a + INR i * ((b - a) / (IZR steps - 1)))%R.
Proof.
  intros H. unfold linspace_points.
  set (f := fun i => (a + INR i * ((b - a) / (IZR steps - 1)))%R).
  rewrite (nth_indep _ 0%R (f 0%nat))
    by (rewrite length_map, length_seq; exact H).
  rewrite (map_nth f), seq_nth by exact H. reflexivity.
Qed.

Lemma length_tl {A} (l : list A) : length (tl l) = (length l - 1)%nat.
Proof. destruct l; cbn; lia. Qed.

Lemma length_removelast {A} (l : list A) :
  length (removelast l) = (length l - 1)%nat.
Proof.
  induction l as [|a [|b l] IH]; cbn in *; try lia.
Qed.

Lemma nth_tl {A} (l : list A) i d : nth i (tl l) d = nth (S i) l d.
Proof. destruct l; [destruct i|]; reflexivity. Qed.

Lemma nth_removelast {A} (l : list A) i d :
  (S i < length l)%nat -> nth i (removelast l) d = nth i l d.
Proof.
  revert i. induction l as [|a [|b l] IH]; intros i H; cbn in H; try lia.
  destruct i; [reflexivity|]. cbn [removelast nth]. apply IH. cbn. lia.
Qed.

Lemma bcast_same_length {A B C} (f : A -> B -> C) l1 l2 :
  length l1 = length l2 ->
  bcast f l1 l2 = OK (map (fun p => f (fst p) (snd p)) (combine l1 l2)).
Proof.
  intros H. unfold bcast. apply Nat.eqb_eq in H. rewrite H. reflexivity.
Qed.

Lemma nth_zip {A B C} (f : A -> B -> C) l1 l2 i d1 d2 d :
  length l1 = length l2 -> (i < length l1)%nat ->
  nth i (map (fun p => f (fst p) (snd p)) (combine l1 l2)) d
  = f (nth i l1 d1) (nth i l2 d2).
Proof.
  intros Hl Hi.
  set (g := fun p : A * B => f (fst p) (snd p)).
  rewrite (nth_indep _ d (g (d1, d2)))
    by (rewrite length_map, length_combine; lia).
  rewrite (map_nth g), combine_nth by exact Hl. reflexivity.
Qed.

(** ** Initial cut-offs of the sinc filters *)

Lemma init_conv1d_keeps_sinc_configuration x :
  preserves
    (fun s => (out_channels s, sample_rate s, min_low_hz s, min_band_hz s))
    (_init_conv1d x).
Proof. unfold _init_conv1d. frame. Qed.

(** The parameters a successful [_init_sinc_conv] leaves, in terms of the
    frequencies [hz] of the mel points. *)
Lemma init_sinc_conv_parameters x s :
  snd (_init_sinc_conv x s) = OK tt ->
  let hz :=
    map _to_hz
      (linspace_points (_to_mel (min_low_hz s))
         (_to_mel (IZR (sample_rate s) / 2 - (min_low_hz s + min_band_hz s)))
         (out_channels s + 1)) in
  0 <= out_channels s + 1 /\
  low_hz_ (fst (_init_sinc_conv x s)) = Some (removelast hz) /\
  band_hz_ (fst (_init_sinc_conv x s))
  = Some (map (fun p => fst p - snd p)%R (combine (tl hz) (removelast hz))).
Proof.
  intros H hz.
  pose proof (init_conv1d_keeps_sinc_configuration x s) as F.
  remember (_init_sinc_conv x s) as r eqn:Er.
  unfold _init_sinc_conv in Er.
  unfold bind, get, getattr, assign, lift, when, ret in Er.
  destruct (_init_conv1d x s) as [s1 [[]|e]]; [|subst r; discriminate].
  cbn in F. injection F as F1 F2 F3 F4.
  cbn in Er. rewrite F1, F2, F3, F4 in Er. unfold linspace in Er.
  destruct (out_channels s + 1 <? 0) eqn:E; [subst r; discriminate|].
  apply Z.ltb_ge in E. cbn in Er. fold hz in Er.
  rewrite bcast_same_length in Er
    by (rewrite length_tl, length_removelast; auto).
  cbn in Er.
  destruct (py_getitem _ 0) as [k|e]; [|subst r; discriminate].
  cbn in Er.
  destruct (py_int _ <? 0); [subst r; discriminate|].
  subst r. cbn. auto.
Qed.

(** C4.  After a successful [_init_sinc_conv], filter [i] starts at the
    frequency whose mel value is the [i]-th of [out_channels + 1] equally
    spaced points from [_to_mel(min_low_hz)] to
    [_to_mel(sample_rate / 2 - (min_low_hz + min_band_hz))], and its band
    ends at the next point.  The two end frequencies are taken in the
    domain of the mel scale. *)
Theorem sinc_init_equally_spaced_in_mel x s :
  snd (_init_sinc_conv x s) = OK tt ->
  (-700 < min_low_hz s)%R ->
  (-700 < IZR (sample_rate s) / 2 - (min_low_hz s + min_band_hz s))%R ->
  let first := _to_mel (min_low_hz s) in
  let last :=
    _to_mel (IZR (sample_rate s) / 2 - (min_low_hz s + min_band_hz s)) in
  let n := Z.to_nat (out_channels s) in
  exists low band,
    low_hz_ (fst (_init_sinc_conv x s)) = Some low /\
    band_hz_ (fst (_init_sinc_conv x s)) = Some band /\
    length low = n /\ length band = n /\
    forall i, (i < n)%nat ->
      (_to_mel (nth i low 0) = first + INR i * ((last - first) / INR n) /\
       _to_mel (nth i low 0 + nth i band 0)
       = first + INR (S i) * ((last - first) / INR n))%R.
Proof.
  intros H _ _ first last n.
  destruct (init_sinc_conv_parameters x s H) as (Hoc & Hlow & Hband).
  fold first last in Hlow, Hband.
  set (mel := linspace_points first last (out_channels s + 1)) in *.
  set (hz := map _to_hz mel) in *.
  set (m := Z.to_nat (out_channels s + 1)).
  assert (Hm : (m - 1 = n)%nat) by (unfold m, n; lia).
  assert (Lmel : length mel = m)
    by (unfold mel; apply length_linspace_points).
  assert (Lhz : length hz = m) by (unfold hz; rewrite length_map; exact Lmel).
  assert (Hmel : forall i, (i < m)%nat ->
            _to_mel (nth i hz 0%R)
            = (first + INR i * ((last - first) / INR n))%R).
  { intros i Hi.
    assert (Steps : (IZR (out_channels s + 1) - 1 = INR n)%R).
    { unfold n. rewrite plus_IZR, INR_IZR_INZ, Z2Nat.id by (unfold m in Hi; lia).
      cbn. ring. }
    unfold hz.
    rewrite (nth_indep _ 0%R (_to_hz 0%R))
      by (rewrite length_map, Lmel; lia).
    rewrite map_nth, to_mel_to_hz. unfold mel.
    rewrite nth_linspace_points, Steps by exact Hi. reflexivity. }
  exists (removelast hz),
    (map (fun p => (fst p - snd p)%R) (combine (tl hz) (removelast hz))).
  split; [exact Hlow|]. split; [exact Hband|].
  assert (L1 : length (removelast hz) = n)
    by (rewrite length_removelast, Lhz; exact Hm).
  assert (L2 : length (tl hz) = n) by (rewrite length_tl, Lhz; exact Hm).
  split; [exact L1|]. split.
  { rewrite length_map, length_combine, L1, L2. lia. }
  intros i Hi.
  rewrite (nth_zip Rminus (tl hz) (removelast hz) i 0%R 0%R 0%R)
    by (rewrite ?L2; auto; lia).
  rewrite nth_tl, nth_removelast by (rewrite Lhz; lia).
  split.
  - apply Hmel. lia.
  - replace (nth i hz 0 + (nth (S i) hz 0 - nth i hz 0))%R
      with (nth (S i) hz 0%R) by ring.
    apply Hmel. lia.
Qed.

Lemma sinc_init_equally_spaced_in_mel_witness :
  exists low band,
    low_hz_
      (fst (_init_sinc_conv [10; 4000]
              (constructed 8 (PyTuple [129]) [1; 1] [1; 1] true 1 true
                 reflect true 16000 50 50))) = Some low /\
    band_hz_
      (fst (_init_sinc_conv [10; 4000]
              (constructed 8 (PyTuple [129]) [1; 1] [1; 1] true 1 true
                 reflect true 16000 50 50))) = Some band /\
    length low = 8%nat /\ length band = 8%nat /\
    forall i, (i < 8)%nat ->
      (_to_mel (nth i low 0)
       = _to_mel 50 + INR i * ((_to_mel (IZR 16000 / 2 - (50 + 50))
                                - _to_mel 50) / INR 8) /\
       _to_mel (nth i low 0 + nth i band 0)
       = _to_mel 50 + INR (S i) * ((_to_mel (IZR 16000 / 2 - (50 + 50))
                                    - _to_mel 50) / INR 8))%R.
Proof.
  apply (sinc_init_equally_spaced_in_mel [10; 4000]
           (constructed 8 (PyTuple [129]) [1; 1] [1; 1] true 1 true reflect
              true 16000 50 50)).
  - lazy. reflexivity.
  - cbn. lra.
  - cbn. lra.
Defined.

(** ** Broadcasting *)

Lemma bcast_row {A B C} (f : A -> B -> C) l b :
  bcast f l [b] = OK (map (fun a => f a b) l).
Proof. destruct l as [|a [|a' l]]; reflexivity. Qed.

Lemma sequence_OK {A B} (g : A -> result B) (h : A -> B) l :
  (forall a, In a l -> g a = OK (h a)) ->
  sequence (map g l) = OK (map h l).
Proof.
  induction l as [|a l IH]; intros H; cbn; [reflexivity|].
  rewrite (H a) by (left; reflexivity). cbn.
  rewrite IH by (intros; apply H; right; assumption). reflexivity.
Qed.

Lemma has_shape_map {A} (g : A -> list R) l c :
  (forall a, In a l -> length (g a) = c) ->
  has_shape (map g l) (length l) c.
Proof.
  intros H. split; [apply length_map|].
  apply Forall_forall. intros row Hr.
  apply in_map_iff in Hr as (a & <- & Ha). auto.
Qed.

Lemma has_shape_outer col row :
  has_shape (outer col row) (length col) (length row).
Proof. apply has_shape_map. intros; apply length_map. Qed.

Lemma length_zip {A B C} (f : A -> B -> C) l1 l2 :
  length l1 = length l2 ->
  length (map (fun p => f (fst p) (snd p)) (combine l1 l2)) = length l1.
Proof. intros H. rewrite length_map, length_combine. lia. Qed.

(** Two matrices of one shape combine entry by entry. *)
Lemma bcast2_same_shape f m1 m2 r c :
  has_shape m1 r c -> has_shape m2 r c ->
  exists m, bcast2 f m1 m2 = OK m /\ has_shape m r c.
Proof.
  intros [L1 R1] [L2 R2]. unfold bcast2.
  rewrite bcast_same_length by congruence. cbn [rbind].
  set (h := fun p : list R * list R =>
              map (fun q => f (fst q) (snd q)) (combine (fst p) (snd p))).
  assert (Hrows : forall p, In p (combine m1 m2) ->
            length (fst p) = c /\ length (snd p) = c).
  { intros [a b] Hp. rewrite Forall_forall in R1, R2. split.
    - apply R1. eapply in_combine_l; eauto.
    - apply R2. eapply in_combine_r; eauto. }
  rewrite (sequence_OK _ h).
  - eexists. split; [reflexivity|].
    replace r with (length (combine m1 m2))
      by (rewrite length_combine; lia).
    apply has_shape_map. intros p Hp. unfold h.
    destruct (Hrows p Hp) as [Ha Hb].
    rewrite length_zip; congruence.
  - intros p Hp. destruct (Hrows p Hp) as [Ha Hb].
    apply bcast_same_length. congruence.
Qed.

(** A matrix and a single row of the width of the matrix. *)
Lemma bcast2_one_row f m row r c :
  has_shape m r c -> length row = c ->
  exists m', bcast2 f m [row] = OK m' /\ has_shape m' r c.
Proof.
  intros [L1 R1] Hrow. unfold bcast2. rewrite bcast_row. cbn [rbind].
  set (h := fun a : list R =>
              map (fun q => f (fst q) (snd q)) (combine a row)).
  rewrite Forall_forall in R1.
  rewrite (sequence_OK _ h).
  - eexists. split; [reflexivity|]. rewrite <- L1.
    apply has_shape_map. intros a Ha. unfold h.
    rewrite length_zip; rewrite (R1 a Ha); congruence.
  - intros a Ha. apply bcast_same_length. rewrite (R1 a Ha). congruence.
Qed.

(** ** Assembling the filters *)

Lemma cat3_palindromes left band (c : R -> R) :
  length left = length band ->
  cat3 left (map (fun b => [c b]) band) (map (@rev R) left)
  = OK (map (fun p => fst p ++ [c (snd p)] ++ rev (fst p))
          (combine left band)).
Proof.
  intros H. unfold cat3. rewrite !length_map, <- H, Nat.eqb_refl.
  cbn [andb]. f_equal. revert band H.
  induction left as [|l left IH]; intros [|b band] H; cbn in H |- *;
    try reflexivity; try discriminate.
  f_equal. apply IH. congruence.
Qed.

Lemma divide_palindromes left band :
  length left = length band ->
  bcast2 Rdiv
    (map (fun p => fst p ++ [2 * snd p]%R ++ rev (fst p)) (combine left band))
    (map (fun b => [2 * b]%R) band)
  = OK (map normalised_palindrome (combine left band)).
Proof.
  intros H. unfold bcast2.
  rewrite bcast_same_length
    by (rewrite !length_map, length_combine; lia).
  cbn [rbind]. revert band H.
  induction left as [|l left IH]; intros [|b band] H; cbn in H |- *;
    try reflexivity; try discriminate.
  rewrite bcast_row. cbn [rbind].
  rewrite IH by congruence. reflexivity.
Qed.

Lemma length_concat_shape m r c :
  has_shape m r c -> length (concat m) = (r * c)%nat.
Proof.
  intros [L F]. subst r. induction F as [|row m Hrow F IH]; cbn;
    [reflexivity|]. rewrite length_app, IH, Hrow. reflexivity.
Qed.

Lemma firstn_exact {A} (l r : list A) c :
  length l = c -> firstn c (l ++ r) = l.
Proof.
  intros <-. induction l as [|a l IH]; cbn; [destruct r|]; congruence.
Qed.

Lemma skipn_exact {A} (l r : list A) c :
  length l = c -> skipn c (l ++ r) = r.
Proof. intros <-. induction l as [|a l IH]; cbn; auto. Qed.

Lemma chunks_concat m r c :
  has_shape m r c -> chunks r c (concat m) = m.
Proof.
  intros [L F]. subst r. induction F as [|row m Hrow F IH]; cbn;
    [reflexivity|].
  rewrite firstn_exact, skipn_exact, IH by exact Hrow. reflexivity.
Qed.

Lemma view_same m r c :
  has_shape m r c -> view m (Z.of_nat r) (Z.of_nat c) = OK m.
Proof.
  intros H. unfold view.
  rewrite (length_concat_shape m r c H), Nat2Z.inj_mul, Z.eqb_refl.
  replace (0 <=? Z.of_nat r) with true by (symmetry; apply Z.leb_le; lia).
  replace (0 <=? Z.of_nat c) with true by (symmetry; apply Z.leb_le; lia).
  cbn [andb]. rewrite !Nat2Z.id, chunks_concat by exact H. reflexivity.
Qed.

Lemma length_normalised_palindrome p :
  length (normalised_palindrome p) = (2 * length (fst p) + 1)%nat.
Proof.
  unfold normalised_palindrome.
  rewrite length_map, !length_app, length_rev. cbn. lia.
Qed.



(** ** The sinc layer after initialisation *)

Lemma nn_Conv1d_inversion cin cout k s d g b m :
  nn_Conv1d cin cout k s d g b = OK m -> 0 <= cout /\ 0 <= k.
Proof.
  unfold nn_Conv1d, check_channels.
  destruct (g <=? 0); [discriminate|].
  destruct (negb _ || negb _); [discriminate|].
  destruct (0 <=? cout) eqn:E1; [|discriminate].
  destruct (0 <=? cin / g); [|discriminate]. cbn.
  destruct (0 <=? k) eqn:E2; [|discriminate].
  intros _. split; apply Z.leb_le; assumption.
Qed.

Lemma init_conv1d_keeps_kernel_size x :
  preserves (fun s => (kernel_size s, out_channels s)) (_init_conv1d x).
Proof. unfold _init_conv1d. frame. Qed.

Lemma bind_inversion {A B C} (f : Conv -> C) (m : M A) (k : A -> M B) s b :
  preserves f m ->
  snd (bind m k s) = OK b ->
  exists a s', m s = (s', OK a) /\ f s' = f s /\ snd (k a s') = OK b.
Proof.
  intros Hm H. unfold bind in H. specialize (Hm s).
  destruct (m s) as [s' [a|e]]; [|discriminate]. eauto.
Qed.

Ltac peel H f :=
  let a := fresh "a" in
  let s' := fresh "s" in
  let E := fresh "E" in
  let F := fresh "F" in
  apply (bind_inversion f) in H;
  [destruct H as (a & s' & E & F & H) | solve [frame]].

Ltac invert_pairs :=
  unfold get, lift in *;
  repeat match goal with
    | E : (_, _) = (_, _) |- _ => injection E as ? ?; subst
    end.

(** A successful [_init_conv1d] has built a layer: the kernel size and the
    channel count are not negative. *)
Lemma init_conv1d_inversion x s :
  snd (_init_conv1d x s) = OK tt ->
  exists k, py_getitem (kernel_size s) 0 = OK k /\ 0 <= k /\
            0 <= out_channels s.
Proof.
  intros H. unfold _init_conv1d in H.
  do 16 (peel H (fun s => (kernel_size s, out_channels s))).
  invert_pairs.
  match goal with
  | N : nn_Conv1d _ _ ?k _ _ _ _ = OK _, K : py_getitem _ 0 = OK ?k |- _ =>
      apply nn_Conv1d_inversion in N; destruct N as [N1 N2];
      exists k; split; [|split; [exact N2|]]
  end; congruence.
Qed.

Lemma py_int_half h :
  0 <= h -> py_int (inject_Z (2 * h + 1) / inject_Z 2) = h.
Proof.
  intros H. unfold py_int.
  replace (Qle_bool 0 (inject_Z (2 * h + 1) / inject_Z 2)) with true.
  - unfold Qfloor, Qdiv, Qmult, Qinv, inject_Z. cbn.
    rewrite Z.mul_1_r. symmetry. apply (Z.div_unique _ 2 h 1); lia.
  - symmetry. apply Qle_bool_iff.
    unfold Qle, Qdiv, Qmult, Qinv, inject_Z. cbn. lia.
Qed.

Lemma length_arange_half h :
  0 <= h ->
  length (arange (- (inject_Z (2 * h + 1 - 1) / inject_Z 2)) 0) = Z.to_nat h.
Proof.
  intros H. unfold arange. rewrite length_map, length_seq. f_equal.
  rewrite (Qceiling_comp _ (inject_Z h)); [apply Qceiling_Z|].
  unfold Qeq, Qminus, Qplus, Qopp, Qdiv, Qmult, Qinv, inject_Z. cbn. lia.
Qed.






(** ** The sinc layer in [forward] *)



(** Beyond [_init_conv1d], [_init_sinc_conv] only sets the four attributes
    of the filter bank. *)
Lemma init_sinc_conv_frame x s :
  call_attributes (fst (_init_sinc_conv x s))
  = call_attributes (fst (_init_conv1d x s)).
Proof.
  unfold _init_sinc_conv. apply (fst_bind_preserves call_attributes).
  intros _. frame.
Qed.




#[local] Arguments _get_sinc_filters : simpl never.



(** ** Shape of the output *)







(** * Further properties *)

(** ** The constructor in full *)

(** X1.  An [int] kernel size builds the object its 1-tuple builds. *)
Theorem int_kernel_is_singleton oc n st dl pd g b pm sc sr mlo mbd :
  __init__ oc (PyInt n) st dl pd g b pm sc sr mlo mbd
  = __init__ oc (PyTuple [n]) st dl pd g b pm sc sr mlo mbd.
Proof. rewrite !init_unfold. reflexivity. Qed.

(** X2.  The constructor returns an object exactly when every kernel size is
    odd and [sinc_conv] does not come with two sizes; the object then holds
    the arguments, [kernel_size] as a sequence, no layer and the mode flags
    its length decides. *)
Theorem constructor_succeeds_iff oc ks st dl pd g b pm sc sr mlo mbd self :
  __init__ oc ks st dl pd g b pm sc sr mlo mbd = OK self <->
  Forall (fun n => n mod 2 <> 0) (kernel_sizes ks) /\
  (sc = true -> arity ks <> 2) /\
  self = constructed oc ks st dl pd g b pm sc sr mlo mbd.
Proof.
  split.
  - intros H. apply init_inversion in H. destruct H as (Hodd & Hs & ->).
    repeat split; auto. intros -> Ha. rewrite Ha in Hs. discriminate.
  - intros (Hodd & Hs & ->). apply init_succeeds; [exact Hodd|].
    destruct sc; [|reflexivity]. cbn. apply Z.eqb_neq. auto.
Qed.

Lemma constructor_succeeds_iff_witness :
  __init__ 25 (PyList [11; 5]) [1; 1] [1; 1] true 1 true reflect false
    16000 50 50
  = OK (constructed 25 (PyList [11; 5]) [1; 1] [1; 1] true 1 true reflect
          false 16000 50 50).
Proof.
  apply (proj2 (constructor_succeeds_iff 25 (PyList [11; 5]) [1; 1] [1; 1]
                  true 1 true reflect false 16000 50 50 _)).
  repeat split; [repeat constructor; discriminate | discriminate].
Defined.

(** X3.  Two odd sizes with [sinc_conv]: the message of the intended
    [ValueError] adds an [int] to a [str], and the constructor raises
    [TypeError]. *)
Theorem sinc_with_odd_pair_raises_TypeError
  oc ks st dl pd g b pm sr mlo mbd :
  arity ks = 2 ->
  Forall (fun n => n mod 2 <> 0) (kernel_sizes ks) ->
  __init__ oc ks st dl pd g b pm true sr mlo mbd = Raise TypeError.
Proof.
  intros Ha Hodd. rewrite init_unfold, Ha.
  apply (check_odd_OK (as_sequence ks)) in Hodd. rewrite Hodd. reflexivity.
Qed.

Lemma sinc_with_odd_pair_raises_TypeError_witness :
  __init__ 8 (PyTuple [129; 3]) [1; 1] [1; 1] true 1 true reflect true
    16000 50 50 = Raise TypeError.
Proof.
  apply (sinc_with_odd_pair_raises_TypeError 8 (PyTuple [129; 3]));
    [reflexivity | repeat constructor; discriminate].
Defined.

(** ** Calls that cannot convolve *)

Lemma bind_raises_now {A B} (m : M A) (k : A -> M B) s e :
  snd (m s) = Raise e -> snd (bind m k s) = Raise e.
Proof. unfold bind. destruct (m s) as [s' [a|e']]; cbn; congruence. Qed.

Lemma bind_raises_after_read {A B} (m : M A) (k : A -> M B) s :
  preserves (fun s => s) m ->
  (forall a, exists e, snd (k a s) = Raise e) ->
  exists e, snd (bind m k s) = Raise e.
Proof.
  intros Hm Hk. unfold bind. specialize (Hm s). cbn in Hm.
  destruct (m s) as [s' [a|e]]; cbn in *; [subst s'; apply Hk | eauto].
Qed.

Ltac reads :=
  solve [frame; first [apply manage_padding_reads
                      | apply get_sinc_filters_reads]].

Lemma forward_false_reads {B} (f : Conv -> B) x s :
  f (fst (forward x false s)) = f s.
Proof.
  revert s. change (preserves f (forward x false)).
  unfold forward. cbn [when].
  apply preserves_bind; [apply preserves_ret | intros _].
  reads.
Qed.

(** X4.  Without [init_params] a call only reads the object: not one
    attribute has changed when it returns or raises. *)
Theorem forward_reads_only x s : fst (forward x false s) = s.
Proof. apply (forward_false_reads (fun s => s)). Qed.

(** An object without a layer and without sinc parameters: the call stops
    where it would convolve, if not before. *)
Lemma forward_without_layer x s :
  conv s = None -> low_hz_ s = None ->
  exists e, snd (forward x false s) = Raise e.
Proof.
  intros Hc Hl. unfold forward. cbn [when].
  do 9 (apply bind_raises_after_read; [reads | intros]).
  match goal with
  | |- context [if ?c then _ else _] => destruct c
  end; eexists; apply bind_raises_now; [apply bind_raises_now|].
  - unfold _get_sinc_filters, bind, get, getattr. rewrite Hl. reflexivity.
  - unfold bind, getattr. rewrite Hc. reflexivity.
Qed.

Lemma forward_without_layer_unpadded x s :
  (2 <= length x)%nat ->
  reshape_conv1d s = false -> unsqueeze s = false -> padding s = false ->
  conv s = None -> low_hz_ s = None ->
  snd (forward x false s) = Raise AttributeError.
Proof.
  intros Hx Hrc Hus Hpd Hc Hl.
  destruct x as [|b0 [|d1 rest]]; cbn in Hx; try lia.
  unfold forward, transpose_1_last. unfold_monad.
  unfold _get_sinc_filters. unfold_monad.
  destruct (rev rest); cbn; rewrite Hrc, Hus, Hpd; cbn;
    destruct (sinc_conv s); cbn; rewrite ?Hl, ?Hc; reflexivity.
Qed.

(** X5.  A layer that has not been initialised never returns an output: a
    call without [init_params] raises, and with [padding] off and an input
    of two dimensions or more the exception is the [AttributeError] of the
    missing layer. *)
Theorem forward_before_init_raises
  oc ks st dl pd g b pm sc sr mlo mbd self :
  __init__ oc ks st dl pd g b pm sc sr mlo mbd = OK self ->
  (forall x, exists e, snd (forward x false self) = Raise e) /\
  (pd = false ->
   forall x, (2 <= length x)%nat ->
             snd (forward x false self) = Raise AttributeError).
Proof.
  intros H. apply init_inversion in H. destruct H as (_ & _ & ->). split.
  - intros x. apply forward_without_layer; reflexivity.
  - intros -> x Hx. apply forward_without_layer_unpadded; auto.
Qed.

Lemma forward_before_init_raises_witness :
  (forall x, exists e,
     snd (forward x false
            (constructed 25 (PyTuple [11]) [1; 1] [1; 1] false 1 true reflect
               false 16000 50 50)) = Raise e) /\
  (false = false ->
   forall x, (2 <= length x)%nat ->
     snd (forward x false
            (constructed 25 (PyTuple [11]) [1; 1] [1; 1] false 1 true reflect
               false 16000 50 50)) = Raise AttributeError).
Proof.
  apply (forward_before_init_raises 25 (PyTuple [11]) [1; 1] [1; 1] false 1
           true reflect false 16000 50 50).
  reflexivity.
Defined.

(** X6.  A [kernel_size] of no size or of three and more is accepted by the
    constructor and builds no layer: every call raises. *)
Theorem forward_of_other_arity_raises
  oc ks st dl pd g b pm sc sr mlo mbd self x :
  __init__ oc ks st dl pd g b pm sc sr mlo mbd = OK self ->
  arity ks <> 1 -> arity ks <> 2 ->
  exists e, snd (forward x true self) = Raise e.
Proof.
  intros H N1 N2.
  rewrite (forward_after_init x self self)
    by (eapply other_arity_builds_nothing; eauto).
  apply init_inversion in H. destruct H as (_ & _ & ->).
  apply forward_without_layer; reflexivity.
Qed.

Lemma forward_of_other_arity_raises_witness :
  exists e,
    snd (forward [10; 100; 40; 8] true
           (constructed 25 (PyTuple [3; 3; 3]) [1; 1] [1; 1] true 1 true
              reflect false 16000 50 50)) = Raise e.
Proof.
  apply (forward_of_other_arity_raises 25 (PyTuple [3; 3; 3]) [1; 1] [1; 1]
           true 1 true reflect false 16000 50 50);
    [reflexivity | discriminate | discriminate].
Defined.

(** ** Inputs of an unsupported rank *)

Lemma init_conv1d_rank_error x s :
  (length x = 1 \/ 4 < length x)%nat ->
  _init_conv1d x s = (s, Raise TypeError).
Proof.
  intros [H | H].
  - destruct x as [|a [|a' x]]; try discriminate. reflexivity.
  - unfold _init_conv1d. cbv zeta.
    replace (Z.of_nat (length x) =? 1) with false
      by (symmetry; apply Z.eqb_neq; lia).
    replace (Z.of_nat (length x) =? 2) with false
      by (symmetry; apply Z.eqb_neq; lia).
    replace (Z.of_nat (length x) =? 3) with false
      by (symmetry; apply Z.eqb_neq; lia).
    replace (Z.of_nat (length x) =? 4) with false
      by (symmetry; apply Z.eqb_neq; lia).
    replace (4 <? Z.of_nat (length x)) with true
      by (symmetry; apply Z.ltb_lt; lia).
    reflexivity.
Qed.

Lemma init_conv2d_rank_error x s :
  (length x <= 2 \/ 4 < length x)%nat ->
  _init_conv2d x s = (s, Raise TypeError).
Proof.
  intros [H | H]; unfold _init_conv2d; cbv zeta.
  - replace (Z.of_nat (length x) <=? 2) with true
      by (symmetry; apply Z.leb_le; lia).
    reflexivity.
  - replace (Z.of_nat (length x) <=? 2) with false
      by (symmetry; apply Z.leb_gt; lia).
    replace (Z.of_nat (length x) =? 3) with false
      by (symmetry; apply Z.eqb_neq; lia).
    replace (Z.of_nat (length x) =? 4) with false
      by (symmetry; apply Z.eqb_neq; lia).
    replace (4 <? Z.of_nat (length x)) with true
      by (symmetry; apply Z.ltb_lt; lia).
    reflexivity.
Qed.

Lemma forward_init_raises x s s' e :
  init_params x s = (s', Raise e) -> forward x true s = (s', Raise e).
Proof.
  intros H. unfold forward. cbn [when]. unfold bind at 1. rewrite H.
  reflexivity.
Qed.

(** X7.  An input of a rank the mode does not take (one dimension or more
    than four in 1D mode, at most two or more than four in 2D mode) stops
    the initialisation; building the message of the intended [ValueError]
    adds an [int] to a [str], so that the call raises [TypeError].  The
    attributes of the layer are left as they were. *)
Theorem unsupported_rank_raises_TypeError
  oc ks st dl pd g b pm sc sr mlo mbd self x :
  __init__ oc ks st dl pd g b pm sc sr mlo mbd = OK self ->
  (arity ks = 1 /\ (length x = 1 \/ 4 < length x)%nat) \/
  (arity ks = 2 /\ (length x <= 2 \/ 4 < length x)%nat) ->
  forward x true self = (self, Raise TypeError).
Proof.
  intros H Hx. apply init_flags in H. destruct H as (Hs & H1 & H2 & _).
  apply forward_init_raises.
  destruct Hx as [[Ha Hx] | [Ha Hx]]; rewrite Ha in H1, H2; cbn in H1, H2.
  - rewrite init_params_1d by assumption.
    destruct (sinc_conv self);
      [unfold _init_sinc_conv, bind|]; rewrite init_conv1d_rank_error by auto;
      reflexivity.
  - rewrite init_params_2d by assumption. apply init_conv2d_rank_error, Hx.
Qed.

Lemma unsupported_rank_raises_TypeError_witness :
  forward [16000] true
    (constructed 25 (PyTuple [11]) [1; 1] [1; 1] true 1 true reflect false
       16000 50 50)
  = (constructed 25 (PyTuple [11]) [1; 1] [1; 1] true 1 true reflect false
       16000 50 50, Raise TypeError).
Proof.
  apply (unsupported_rank_raises_TypeError 25 (PyTuple [11]) [1; 1] [1; 1]
           true 1 true reflect false 16000 50 50);
    [reflexivity | left; split; [reflexivity | left; reflexivity]].
Defined.

(** ** A rank-4 input in 1D mode *)

Lemma F_conv1d_rank x cin cout k s d wx :
  F_conv1d x cin cout k s d = OK wx -> length wx = 3%nat.
Proof.
  unfold F_conv1d.
  destruct x as [|n [|c [|L [|]]]]; try discriminate.
  destruct ((1 <=? cout) && (c =? cin)); [|discriminate].
  destruct (conv_out_len L k s d); [|discriminate].
  intros [= <-]. reflexivity.
Qed.

Lemma getitem_past_the_end l :
  length l = 3%nat -> seq_getitem l 3 = Raise IndexError.
Proof.
  destruct l as [|a [|b [|c [|]]]]; try discriminate. reflexivity.
Qed.

Ltac case_results H :=
  repeat match type of H with
    | context [match ?r with OK _ => _ | Raise _ => _ end] =>
        let E := fresh "E" in destruct r eqn:E; cbn in H
    end.

Lemma init_conv1d_rank4_inversion B T C F s s' :
  _init_conv1d [B; T; C; F] s = (s', OK tt) ->
  reshape_conv1d s' = true /\ unsqueeze s' = unsqueeze s /\
  sinc_conv s' = sinc_conv s /\
  exists cin oc k s0 d0 g b, conv s' = Some (Conv1d cin oc k s0 d0 g b).
Proof.
  unfold _init_conv1d. unfold_monad. exec. intros H.
  case_results H; try discriminate.
  injection H as <-. repeat split.
  match goal with
  | N : nn_Conv1d ?cin ?oc ?k ?s0 ?d0 ?g ?b = OK ?m |- _ =>
      exists cin, oc, k, s0, d0, g, b; revert N; unfold nn_Conv1d;
      destruct (check_channels cin oc g); [|discriminate]; cbn;
      destruct (0 <=? k); [|discriminate]; intros [= <-]
  end.
  reflexivity.
Qed.

Ltac peel_read H :=
  let a := fresh "a" in
  let s' := fresh "s" in
  let E := fresh "E" in
  let F := fresh "F" in
  apply (bind_inversion (fun s : Conv => s)) in H;
  [destruct H as (a & s' & E & F & H); cbn beta in F; subst s' | reads].

(** A layer that folds its input ([reshape_conv1d]) convolves a rank-3
    tensor and then reads a fourth dimension of the result. *)
Lemma forward_folded_raises s B T C F :
  reshape_conv1d s = true -> unsqueeze s = false ->
  (sinc_conv s = false ->
   exists cin oc k s0 d0 g b, conv s = Some (Conv1d cin oc k s0 d0 g b)) ->
  exists e, snd (forward [B; T; C; F] false s) = Raise e.
Proof.
  intros Hrc Hus Hconv.
  destruct (snd (forward [B; T; C; F] false s)) as [out|e] eqn:H;
    [exfalso | eauto].
  unfold forward in H. cbn [when] in H.
  do 12 peel_read H. clear H.
  unfold get in E1, E3, E7.
  injection E1 as <-. injection E3 as <-. injection E7 as <-.
  rewrite Hrc in E10. rewrite Hus in E9. injection E9 as <-.
  assert (L : length a8 = 3%nat).
  { apply (f_equal snd) in E8. cbn [snd] in E8.
    destruct (sinc_conv s).
    - do 8 peel_read E8. apply F_conv1d_rank in E8. exact E8.
    - destruct (Hconv eq_refl) as (cin & oc & k & s0 & d0 & g & b & Hc).
      unfold bind, getattr in E8. rewrite Hc in E8.
      apply F_conv1d_rank in E8. exact E8. }
  apply (f_equal snd) in E10. cbn [snd] in E10.
  do 4 peel_read E10.
  match goal with
  | X : lift (seq_getitem a8 3) s = _ |- _ =>
      unfold lift in X; rewrite (getitem_past_the_end a8 L) in X;
      discriminate
  end.
Qed.

(** X8.  A rank-4 input to a 1D layer, plain or with sinc filters, never
    gives an output: whatever the arguments of the constructor and the
    dimensions of the input, the first call raises. *)
Theorem forward_1d_rank4_never_returns
  oc ks st dl pd g b pm sc sr mlo mbd self B T C F :
  __init__ oc ks st dl pd g b pm sc sr mlo mbd = OK self ->
  arity ks = 1 ->
  exists e, snd (forward [B; T; C; F] true self) = Raise e.
Proof.
  intros H Ha.
  pose proof (init_flags _ _ _ _ _ _ _ _ _ _ _ _ _ H) as (Hs & H1 & H2 & _).
  rewrite Ha in H1, H2. cbn in H1, H2.
  apply init_inversion in H. destruct H as (_ & _ & Hself).
  assert (Hus : unsqueeze self = false) by (subst self; reflexivity).
  destruct (init_params [B; T; C; F] self) as [s' [[]|e]] eqn:E.
  2:{ exists e. rewrite (forward_init_raises _ _ _ _ E). reflexivity. }
  rewrite (forward_after_init _ _ _ E).
  rewrite init_params_1d in E by assumption.
  destruct (sinc_conv self) eqn:Hsc.
  - pose proof (init_sinc_conv_frame [B; T; C; F] self) as Fr.
    rewrite E in Fr. cbn [fst] in Fr.
    destruct (_init_conv1d [B; T; C; F] self) as [s1 [[]|e]] eqn:E1.
    2:{ unfold _init_sinc_conv, bind in E. rewrite E1 in E. discriminate. }
    apply init_conv1d_rank4_inversion in E1.
    destruct E1 as (Q1 & Q2 & Q3 & _).
    unfold call_attributes in Fr. cbn [fst] in Fr.
    injection Fr as R1 R2 R3 _ _ _ _ _ _ _.
    apply forward_folded_raises; try congruence.
  - apply init_conv1d_rank4_inversion in E.
    destruct E as (Q1 & Q2 & Q3 & Q4).
    apply forward_folded_raises; auto; congruence.
Qed.

Lemma forward_1d_rank4_never_returns_witness :
  exists e,
    snd (forward [10; 100; 40; 128] true
           (constructed 25 (PyInt 11) [1; 1] [1; 1] true 1 true reflect
              false 16000 50 50)) = Raise e.
Proof.
  apply (forward_1d_rank4_never_returns 25 (PyInt 11) [1; 1] [1; 1] true 1
           true reflect false 16000 50 50); reflexivity.
Defined.

(** ** The padding amounts *)

Lemma get_padding_elem_amount L s k d :
  1 <= s ->
  _get_padding_elem L s k d
  = OK [padding_amount s k d; padding_amount s k d].
Proof.
  intros Hs. unfold padding_amount.
  assert (Cases : s = 1 \/ 1 < s) by lia.
  destruct Cases as [-> | H].
  - apply get_padding_elem_stride1.
  - rewrite get_padding_elem_strided by exact H.
    apply Z.ltb_lt in H as ->. reflexivity.
Qed.

(** X9.  Within the range of the float arithmetic ([padding_in_range]) and
    for a stride of one or more, the amounts do not depend on the length
    they are computed from: half the kernel on either side when the stride
    is above one, half the span of the dilated kernel when it is one.  A
    stride of zero divides by zero. *)
Theorem get_padding_elem_closed_form L s k d :
  0 <= s ->
  padding_in_range L k d ->
  _get_padding_elem L s k d
  = (if s =? 0 then Raise ZeroDivisionError
     else OK [padding_amount s k d; padding_amount s k d]) /\
  forall L',
    padding_in_range L' k d ->
    _get_padding_elem L' s k d = _get_padding_elem L s k d.
Proof.
  intros Hs _.
  assert (Cases : s = 0 \/ 1 <= s) by lia.
  destruct Cases as [-> | H].
  - split; [reflexivity | intros; reflexivity].
  - split; [|intros]; rewrite !get_padding_elem_amount by exact H;
      [|reflexivity].
    replace (s =? 0) with false by (symmetry; apply Z.eqb_neq; lia).
    reflexivity.
Qed.

Ltac in_range :=
  split; vm_compute; first [reflexivity | discriminate].

Lemma get_padding_elem_closed_form_witness :
  _get_padding_elem 16000 2 11 3 = OK [5; 5] /\
  forall L',
    padding_in_range L' 11 3 ->
    _get_padding_elem L' 2 11 3 = _get_padding_elem 16000 2 11 3.
Proof.
  apply (get_padding_elem_closed_form 16000 2 11 3); [lia | in_range].
Defined.

(** X10.  [_manage_padding] pads the time axis, the last one, and in 2D
    mode the frequency axis before it, each by the amounts of its own
    stride, kernel size and dilation: that the amounts of the frequency
    axis are computed from the length of the time axis changes nothing.
    The first layer is in 1D mode and the second in 2D mode; the input has
    at least one channel and positive lengths, the strides, kernel sizes
    and dilations are one or more and the lengths within the range of the
    float arithmetic. *)
Theorem manage_padding_shapes s1 s2 B C F T kt kf st sf dt df :
  conv2d s1 = false -> conv2d s2 = true ->
  0 <= B -> 1 <= C -> 1 <= F -> 1 <= T ->
  1 <= st -> 1 <= sf -> 1 <= kt -> 1 <= kf -> 1 <= dt -> 1 <= df ->
  padding_in_range T kt dt -> padding_in_range T kf df ->
  let pt := padding_amount st kt dt in
  let pf := padding_amount sf kf df in
  pad_dim (padding_mode s1) T pt pt = OK (T + pt + pt) ->
  pad_dim (padding_mode s2) T pt pt = OK (T + pt + pt) ->
  pad_dim (padding_mode s2) F pf pf = OK (F + pf + pf) ->
  snd (_manage_padding [B; C; T] (PyTuple [kt]) [dt] [st] s1)
  = OK [B; C; T + pt + pt] /\
  snd (_manage_padding [B; C; F; T] (PyTuple [kf; kt]) [df; dt] [sf; st] s2)
  = OK [B; C; F + pf + pf; T + pt + pt].
Proof.
  intros Hc1 Hc2 _ HC _ _ Hst Hsf _ _ _ _ _ _ pt pf Hp1 Hpt Hpf.
  assert (HC0 : C <> 0) by lia.
  split; unfold _manage_padding; unfold_monad;
    rewrite !py_getitem_tuple; exec;
    rewrite (get_padding_elem_amount T st kt dt Hst); exec;
    rewrite ?Hc1, ?Hc2; exec.
  - rewrite pad_3d by exact HC0. fold pt. rewrite Hp1. reflexivity.
  - rewrite (get_padding_elem_amount T sf kf df Hsf). exec.
    rewrite pad_4d by exact HC0. fold pt pf. rewrite Hpt, Hpf. reflexivity.
Qed.

Lemma manage_padding_shapes_witness :
  snd (_manage_padding [10; 1; 100] (PyTuple [11]) [3] [1]
         (constructed 25 (PyTuple [11]) [1] [3] true 1 true reflect false
            16000 50 50))
  = OK [10; 1; 100 + 15 + 15] /\
  snd (_manage_padding [10; 1; 40; 100] (PyTuple [5; 11]) [1; 3] [2; 1]
         (constructed 25 (PyTuple [11; 5]) [1; 2] [3; 1] true 1 true reflect
            false 16000 50 50))
  = OK [10; 1; 40 + 2 + 2; 100 + 15 + 15].
Proof.
  apply (manage_padding_shapes
           (constructed 25 (PyTuple [11]) [1] [3] true 1 true reflect false
              16000 50 50)
           (constructed 25 (PyTuple [11; 5]) [1; 2] [3; 1] true 1 true
              reflect false 16000 50 50) 10 1 40 100 11 5 1 2 3 1);
    try reflexivity; try lia; in_range.
Defined.

(** ** Output lengths in the other configurations *)

Lemma odd_half k : k mod 2 <> 0 -> 2 * (k / 2) = k - 1.
Proof.
  intros H. pose proof (Z.mod_pos_bound k 2 ltac:(lia)).
  pose proof (Z.div_mod k 2 ltac:(lia)). lia.
Qed.

Lemma conv_out_len_OK L k s d :
  1 <= k -> 1 <= s -> 1 <= d -> d * (k - 1) + 1 <= L ->
  conv_out_len L k s d = OK ((L - d * (k - 1) - 1) / s + 1).
Proof.
  intros Hk Hs Hd HL. unfold conv_out_len.
  replace (1 <=? k) with true by (symmetry; apply Z.leb_le; lia).
  replace (1 <=? s) with true by (symmetry; apply Z.leb_le; lia).
  replace (1 <=? d) with true by (symmetry; apply Z.leb_le; lia).
  replace (d * (k - 1) + 1 <=? L) with true
    by (symmetry; apply Z.leb_le; lia).
  reflexivity.
Qed.

Lemma getitem_last_exists l a :
  seq_getitem l 0 = OK a -> exists b, seq_getitem l (-1) = OK b.
Proof.
  destruct l as [|x l]; [discriminate|]. intros _.
  unfold seq_getitem. change (-1 <? 0) with true. cbv iota zeta.
  set (n := Z.of_nat (length (x :: l))).
  assert (Hn : 0 < n) by (unfold n; cbn [length]; lia).
  replace (0 <=? -1 + n) with true by (symmetry; apply Z.leb_le; lia).
  replace (-1 + n <? n) with true by (symmetry; apply Z.ltb_lt; lia).
  cbn [andb].
  destruct (nth_error (x :: l) (Z.to_nat (-1 + n))) as [v|] eqn:E; eauto.
  apply nth_error_None in E. unfold n in *. lia.
Qed.

(** X11.  With a stride above one the padding is half the kernel whatever
    the dilation, and the 1D layer returns
    [(T - (d - 1) (k - 1) - 1) // stride + 1] frames, the ceiling of
    [(T - (d - 1) (k - 1)) / stride]: at dilation one, of [T / stride].
    The layer has at least one output channel, the input at least one
    channel and a length within the range of the float arithmetic. *)
Theorem forward_1d_strided_length
  oc ks k s d g b pm sr mlo mbd self B T C :
  kernel_sizes ks = [k] ->
  __init__ oc ks [s] [d] true g b pm false sr mlo mbd = OK self ->
  1 <= k -> 1 < s -> 1 <= d -> (d - 1) * (k - 1) + 1 <= T ->
  0 <= B -> 1 <= C -> 1 <= oc ->
  padding_in_range T k d ->
  check_channels C oc g = OK tt ->
  pad_dim pm T (k / 2) (k / 2) = OK (T + k / 2 + k / 2) ->
  let T' := (T - (d - 1) * (k - 1) - 1) / s + 1 in
  snd (forward [B; T; C] true self) = OK [B; T'; oc] /\
  s * (T' - 1) < T - (d - 1) * (k - 1) <= s * T'.
Proof.
  intros Hk H Hk1 Hs Hd HT _ HC Hoc _ Hch Hpad T'.
  apply init_inversion in H. destruct H as (Hodd & _ & ->).
  rewrite Hk in Hodd. inversion Hodd as [|? ? Hodd1 _]; subst.
  pose proof (odd_half k Hodd1) as E.
  split.
  - apply (forward_1d_shape oc ks k [s] [d] s d s d true g b pm sr mlo mbd
             B T [C] (T + k / 2 + k / 2) T');
      auto; try reflexivity; try (cbn; lia).
    + unfold padded_axis. rewrite get_padding_elem_strided by exact Hs.
      exact Hpad.
    + rewrite conv_out_len_OK by nia. unfold T'. do 3 f_equal. nia.
  - unfold T'. set (A := T - (d - 1) * (k - 1)).
    pose proof (Z.div_mod (A - 1) s ltac:(lia)).
    pose proof (Z.mod_pos_bound (A - 1) s ltac:(lia)). nia.
Qed.

Lemma forward_1d_strided_length_witness :
  snd (forward [10; 100; 40] true
         (constructed 25 (PyTuple [11]) [4] [3] true 1 true reflect false
            16000 50 50))
  = OK [10; (100 - (3 - 1) * (11 - 1) - 1) / 4 + 1; 25] /\
  4 * ((100 - (3 - 1) * (11 - 1) - 1) / 4 + 1 - 1)
  < 100 - (3 - 1) * (11 - 1)
  <= 4 * ((100 - (3 - 1) * (11 - 1) - 1) / 4 + 1).
Proof.
  apply (forward_1d_strided_length 25 (PyTuple [11]) 11 4 3 1 true reflect
           16000 50 50 _ 10 100 40);
    try reflexivity; try lia; in_range.
Defined.

(** X12.  Without padding the convolution is a valid one: an axis of
    length [L] comes out with [(L - d (k - 1) - 1) // stride + 1] entries,
    in 1D mode and on both axes in 2D mode, for a layer of at least one
    output channel and an input of at least one channel. *)
Theorem forward_without_padding
  oc ks1 ks2 kt kf sts dls st sf dt df g b pm sr mlo mbd B T F C :
  kernel_sizes ks1 = [kt] -> kernel_sizes ks2 = [kt; kf] ->
  kt mod 2 <> 0 -> kf mod 2 <> 0 -> 1 <= kt -> 1 <= kf ->
  seq_getitem sts 0 = OK st -> seq_getitem dls 0 = OK dt ->
  1 <= st -> 1 <= sf -> 1 <= dt -> 1 <= df ->
  dt * (kt - 1) + 1 <= T -> df * (kf - 1) + 1 <= F ->
  0 <= B -> 1 <= C -> 1 <= oc ->
  check_channels C oc g = OK tt ->
  (exists self,
     __init__ oc ks1 sts dls false g b pm false sr mlo mbd = OK self /\
     snd (forward [B; T; C] true self)
     = OK [B; (T - dt * (kt - 1) - 1) / st + 1; oc]) /\
  (exists self,
     __init__ oc ks2 [st; sf] [dt; df] false g b pm false sr mlo mbd
     = OK self /\
     snd (forward [B; T; F; C] true self)
     = OK [B; (T - dt * (kt - 1) - 1) / st + 1;
           (F - df * (kf - 1) - 1) / sf + 1; oc]).
Proof.
  intros Hk1 Hk2 Hot Hof Hkt Hkf Hs0 Hd0 Hst Hsf Hdt Hdf HT HF _ HC Hoc Hch.
  destruct (getitem_last_exists _ _ Hs0) as (sl & Hsl).
  destruct (getitem_last_exists _ _ Hd0) as (dl & Hdl).
  split; eexists; (split; [apply odd_kernel_constructs|]).
  - rewrite Hk1. repeat constructor; auto.
  - apply (forward_1d_shape oc ks1 kt sts dls st dt sl dl false g b pm sr
             mlo mbd B T [C] T); auto; try reflexivity; try (cbn; lia).
    apply conv_out_len_OK; assumption.
  - rewrite Hk2. repeat constructor; auto.
  - apply (forward_2d_shape oc ks2 kt kf st sf dt df false g b pm sr mlo mbd
             B T F [C] T F); auto; try reflexivity; try (cbn; lia);
      apply conv_out_len_OK; assumption.
Qed.

Lemma forward_without_padding_witness :
  (exists self,
     __init__ 25 (PyTuple [11]) [2] [3] false 1 true reflect false
       16000 50 50 = OK self /\
     snd (forward [10; 100; 40] true self)
     = OK [10; (100 - 3 * (11 - 1) - 1) / 2 + 1; 25]) /\
  (exists self,
     __init__ 25 (PyTuple [11; 5]) [2; 1] [3; 2] false 1 true reflect false
       16000 50 50 = OK self /\
     snd (forward [10; 100; 64; 40] true self)
     = OK [10; (100 - 3 * (11 - 1) - 1) / 2 + 1;
           (64 - 2 * (5 - 1) - 1) / 1 + 1; 25]).
Proof.
  apply (forward_without_padding 25 (PyTuple [11]) (PyTuple [11; 5]) 11 5
           [2] [3] 2 1 3 2 1 true reflect 16000 50 50 10 100 64 40);
    try reflexivity; try lia; discriminate.
Defined.

(** X13.  In 1D mode the convolution takes the first entry of [dilation]
    and the padding the last: with the pair [(d0, dl)] and stride one the
    output has [T + (dl - d0) (k - 1)] frames, the input length only when
    the two entries agree.  The layer has at least one output channel, the
    input at least one channel and a length within the range of the float
    arithmetic. *)
Theorem forward_1d_dilation_pair
  oc ks k d0 dl g b pm sr mlo mbd self B T C :
  kernel_sizes ks = [k] ->
  __init__ oc ks [1; 1] [d0; dl] true g b pm false sr mlo mbd = OK self ->
  1 <= k -> 1 <= d0 -> 1 <= dl -> 1 <= T + (dl - d0) * (k - 1) ->
  0 <= B -> 1 <= C -> 1 <= oc ->
  padding_in_range T k dl ->
  check_channels C oc g = OK tt ->
  pad_dim pm T (dl * (k - 1) / 2) (dl * (k - 1) / 2)
  = OK (T + dl * (k - 1) / 2 + dl * (k - 1) / 2) ->
  snd (forward [B; T; C] true self) = OK [B; T + (dl - d0) * (k - 1); oc].
Proof.
  intros Hk H Hk1 Hd0 Hdl HT _ HC Hoc _ Hch Hpad.
  apply init_inversion in H. destruct H as (Hodd & _ & ->).
  rewrite Hk in Hodd. inversion Hodd as [|? ? Hodd1 _]; subst.
  pose proof (half_of_even_span k dl Hodd1) as E.
  apply (forward_1d_shape oc ks k [1; 1] [d0; dl] 1 d0 1 dl true g b pm sr
           mlo mbd B T [C] (T + dl * (k - 1) / 2 + dl * (k - 1) / 2)
           (T + (dl - d0) * (k - 1)));
    auto; try reflexivity; try (cbn; lia).
  - unfold padded_axis. rewrite get_padding_elem_stride1. exact Hpad.
  - rewrite conv_out_len_OK by nia. rewrite Z.div_1_r. f_equal. nia.
Qed.

Lemma forward_1d_dilation_pair_witness :
  snd (forward [10; 100; 40] true
         (constructed 25 (PyTuple [11]) [1; 1] [3; 1] true 1 true reflect
            false 16000 50 50))
  = OK [10; 100 + (1 - 3) * (11 - 1); 25].
Proof.
  apply (forward_1d_dilation_pair 25 (PyTuple [11]) 11 3 1 1 true reflect
           16000 50 50 _ 10 100 40);
    try reflexivity; try lia; in_range.
Defined.



(** ** A 2D layer with a single stride *)

Lemma getitem_short_1 a : seq_getitem [a] 1 = Raise IndexError.
Proof. reflexivity. Qed.

Lemma init_conv2d_single_entry x s k0 k1 s0 :
  (length x = 3 \/ length x = 4)%nat ->
  py_getitem (kernel_size s) 0 = OK k0 ->
  py_getitem (kernel_size s) 1 = OK k1 ->
  stride s = [s0] ->
  snd (_init_conv2d x s) = Raise IndexError /\
  kernel_size (fst (_init_conv2d x s)) = PyTuple [k1; k0] /\
  stride (fst (_init_conv2d x s)) = [s0].
Proof.
  intros Hx K0 K1 Hs.
  destruct x as [|x0 [|x1 [|x2 [|x3 [|x4 x]]]]]; cbn in Hx;
    try (exfalso; lia);
    unfold _init_conv2d; unfold_monad; exec; rewrite K1, K0; exec;
    rewrite Hs; exec; rewrite getitem_short_1; cbn; auto.
Qed.

Lemma forward_init_raises_snd x s e :
  snd (init_params x s) = Raise e -> snd (forward x true s) = Raise e.
Proof. intros H. unfold forward. cbn [when]. apply bind_raises_now, H. Qed.

(** X15.  A 2D layer whose [stride] has one entry: the initialisation has
    already exchanged the two kernel sizes when reading [stride[1]] raises
    [IndexError]; the object keeps the exchanged kernel and its stride. *)
Theorem forward_2d_single_stride_raises
  oc ks k1 k2 s0 dl pd g b pm sc sr mlo mbd self x :
  kernel_sizes ks = [k1; k2] ->
  __init__ oc ks [s0] dl pd g b pm sc sr mlo mbd = OK self ->
  (length x = 3 \/ length x = 4)%nat ->
  snd (forward x true self) = Raise IndexError /\
  kernel_size (fst (forward x true self)) = PyTuple [k2; k1] /\
  stride (fst (forward x true self)) = [s0].
Proof.
  intros Hk H Hx.
  pose proof (init_flags _ _ _ _ _ _ _ _ _ _ _ _ _ H) as (_ & H1 & H2 & _).
  assert (Ha : arity ks = 2) by (unfold arity; rewrite Hk; reflexivity).
  rewrite Ha in H1, H2. cbn in H1, H2.
  apply init_inversion in H. destruct H as (_ & _ & Hself).
  destruct (getitem_pair ks k1 k2 Hk) as (K0 & K1).
  assert (Hks : kernel_size self = as_sequence ks) by (subst; reflexivity).
  assert (Hst : stride self = [s0]) by (subst; reflexivity).
  rewrite <- Hks in K0, K1.
  destruct (init_conv2d_single_entry x self k1 k2 s0 Hx K0 K1 Hst)
    as (E1 & E2 & E3).
  rewrite !forward_state, (init_params_2d x self) by assumption.
  split; [|auto].
  apply forward_init_raises_snd. rewrite init_params_2d by assumption.
  exact E1.
Qed.

Lemma forward_2d_single_stride_raises_witness :
  snd (forward [10; 100; 40; 128] true
         (constructed 25 (PyTuple [11; 5]) [2] [1; 1] true 1 true reflect
            false 16000 50 50)) = Raise IndexError /\
  kernel_size
    (fst (forward [10; 100; 40; 128] true
            (constructed 25 (PyTuple [11; 5]) [2] [1; 1] true 1 true reflect
               false 16000 50 50))) = PyTuple [5; 11] /\
  stride
    (fst (forward [10; 100; 40; 128] true
            (constructed 25 (PyTuple [11; 5]) [2] [1; 1] true 1 true reflect
               false 16000 50 50))) = [2].
Proof.
  apply (forward_2d_single_stride_raises 25 (PyTuple [11; 5]) 11 5 2 [1; 1]
           true 1 true reflect false 16000 50 50);
    [reflexivity | reflexivity | right; reflexivity].
Defined.

(** ** Flags that are only ever set *)

Lemma keeps_read {A} (P : Conv -> Prop) (m : M A) :
  preserves (fun s => s) m -> keeps P m.
Proof. intros H s Hs. rewrite (H s). exact Hs. Qed.

Lemma keeps_assign (P : Conv -> Prop) (h : Conv -> Conv) :
  (forall s, P s -> P (h s)) -> keeps P (assign h).
Proof. intros H s. apply H. Qed.

Lemma keeps_bind {A B} (P : Conv -> Prop) (m : M A) (k : A -> M B) :
  keeps P m -> (forall a, keeps P (k a)) -> keeps P (bind m k).
Proof.
  intros Hm Hk s Hs. unfold bind. specialize (Hm s Hs).
  destruct (m s) as [s' [a|e]]; cbn in *; [apply Hk|]; exact Hm.
Qed.

Lemma keeps_when (P : Conv -> Prop) (c : bool) (m : M unit) :
  keeps P m -> keeps P (when c m).
Proof. destruct c; [auto | intros _ s Hs; exact Hs]. Qed.

Lemma init_params_keeps (P : Conv -> Prop) x :
  (forall v s, P s -> P (set_in_channels v s)) ->
  (forall v s, P s -> P (set_conv v s)) ->
  (forall v s, P s -> P (set_kernel_size v s)) ->
  (forall v s, P s -> P (set_stride v s)) ->
  (forall v s, P s -> P (set_dilation v s)) ->
  (forall v s, P s -> P (set_low_hz_ v s)) ->
  (forall v s, P s -> P (set_band_hz_ v s)) ->
  (forall v s, P s -> P (set_window_ v s)) ->
  (forall v s, P s -> P (set_n_ v s)) ->
  (forall s, P s -> P (set_unsqueeze true s)) ->
  (forall s, P s -> P (set_reshape_conv1d true s)) ->
  keeps P (init_params x).
Proof.
  intros. unfold init_params, _init_sinc_conv, _init_conv1d, _init_conv2d.
  repeat match goal with
    | |- keeps _ (if ?c then _ else _) => destruct c
    | |- keeps _ (let _ := _ in _) => cbv zeta
    | |- keeps _ (bind _ _) => apply keeps_bind; [|intros]
    | |- keeps _ (when _ _) => apply keeps_when
    | |- keeps _ (assign _) => apply keeps_assign; auto
    | |- keeps _ _ => apply keeps_read; solve [frame]
    end.
Qed.

(** X16.  Only the constructor clears [unsqueeze] and [reshape_conv1d]: once
    an initialisation has set one of them, no later call, with or without
    [init_params] and whatever the rank of its input, resets it. *)
Theorem shape_flags_are_never_reset x init s :
  (unsqueeze s = true -> unsqueeze (fst (forward x init s)) = true) /\
  (reshape_conv1d s = true ->
   reshape_conv1d (fst (forward x init s)) = true).
Proof.
  destruct init.
  - split; intros H; rewrite forward_state;
      apply (init_params_keeps (fun s => _ s = true)); auto.
  - split; intros H; [rewrite (forward_false_reads unsqueeze)
                      | rewrite (forward_false_reads reshape_conv1d)];
      exact H.
Qed.

Lemma shape_flags_are_never_reset_witness :
  unsqueeze
    (fst (forward [10; 100; 1] true
            (fst (init_params [10; 100]
                    (constructed 25 (PyTuple [11]) [1; 1] [1; 1] true 1 true
                       reflect false 16000 50 50)))))
  = true.
Proof.
  apply (proj1 (shape_flags_are_never_reset [10; 100; 1] true
                  (fst (init_params [10; 100]
                          (constructed 25 (PyTuple [11]) [1; 1] [1; 1] true 1
                             true reflect false 16000 50 50))))).
  reflexivity.
Defined.

(** ** Order on the mel scale *)

Section MelScale.

Local Open Scope R_scope.

Lemma to_hz_lt a b : a < b -> _to_hz a < _to_hz b.
Proof.
  intros H. unfold _to_hz.
  assert (Rpower 10 (a / 2595) < Rpower 10 (b / 2595))
    by (apply Rpower_lt; lra).
  lra.
Qed.

Lemma to_mel_lt a b : -700 < a -> a < b -> _to_mel a < _to_mel b.
Proof.
  intros Ha H. unfold _to_mel. pose proof ln_10_pos as L.
  assert (ln (1 + a / 700) < ln (1 + b / 700))
    by (apply ln_increasing; lra).
  apply Rmult_lt_compat_l; [lra|].
  apply Rmult_lt_compat_r; [apply Rinv_0_lt_compat; exact L | assumption].
Qed.

(** X17.  Both conversions keep the order of the frequencies ([_to_mel]
    where it is defined, above -700 Hz), and [_to_hz] stays above -700 Hz;
    zero is zero on both scales. *)
Theorem mel_scale_increasing a b :
  a < b ->
  _to_hz a < _to_hz b /\
  (-700 < a -> _to_mel a < _to_mel b) /\
  -700 < _to_hz a /\
  _to_mel 0 = 0 /\ _to_hz 0 = 0.
Proof.
  intros H. split; [apply to_hz_lt, H|].
  split; [intros; apply to_mel_lt; auto|].
  split; [|split].
  - unfold _to_hz, Rpower. pose proof (exp_pos (a / 2595 * ln 10)). lra.
  - unfold _to_mel. replace (1 + 0 / 700) with 1 by field.
    rewrite ln_1. field. pose proof ln_10_pos. lra.
  - unfold _to_hz, Rpower. replace (0 / 2595 * ln 10) with 0 by field.
    rewrite exp_0. ring.
Qed.

End MelScale.

Lemma mel_scale_increasing_witness :
  (_to_hz 100 < _to_hz 200)%R /\
  (-700 < 100 -> _to_mel 100 < _to_mel 200)%R /\
  (-700 < _to_hz 100)%R /\
  _to_mel 0 = 0%R /\ _to_hz 0 = 0%R.
Proof. apply (mel_scale_increasing 100 200). lra. Defined.

(** ** The initial filter bank *)

Section InitialBank.

Variables (x : shape) (s : Conv).

Hypothesis Hinit : snd (_init_sinc_conv x s) = OK tt.

Lemma init_sinc_conv_bank :
  0 <= out_channels s /\
  length (initial_hz s) = S (Z.to_nat (out_channels s)) /\
  exists low band,
    low_hz_ (fst (_init_sinc_conv x s)) = Some low /\
    band_hz_ (fst (_init_sinc_conv x s)) = Some band /\
    length low = Z.to_nat (out_channels s) /\
    forall i, (i < Z.to_nat (out_channels s))%nat ->
      nth i low 0%R = nth i (initial_hz s) 0%R /\
      nth i band 0%R
      = (nth (S i) (initial_hz s) 0 - nth i (initial_hz s) 0)%R.
Proof.
  destruct (init_sinc_conv_parameters x s Hinit) as (_ & Hlow & Hband).
  fold (high_hz s) in Hlow, Hband. fold (initial_hz s) in Hlow, Hband.
  assert (Hoc : 0 <= out_channels s).
  { assert (Hc : snd (_init_conv1d x s) = OK tt).
    { revert Hinit. unfold _init_sinc_conv, bind.
      destruct (_init_conv1d x s) as [s1 [[]|e]];
        [reflexivity | discriminate]. }
    destruct (init_conv1d_inversion x s Hc) as (k & _ & _ & Hoc).
    exact Hoc. }
  assert (Lhz : length (initial_hz s) = S (Z.to_nat (out_channels s))).
  { unfold initial_hz. rewrite length_map, length_linspace_points. lia. }
  split; [exact Hoc|]. split; [exact Lhz|].
  eexists; eexists. split; [exact Hlow|]. split; [exact Hband|]. split.
  - rewrite length_removelast, Lhz. lia.
  - intros i Hi. split.
    + apply nth_removelast. rewrite Lhz. lia.
    + rewrite (nth_zip Rminus (tl (initial_hz s))
                 (removelast (initial_hz s)) i 0%R 0%R 0%R)
        by (rewrite ?length_tl, ?length_removelast, Lhz; lia).
      rewrite nth_tl, nth_removelast by (rewrite Lhz; lia). reflexivity.
Qed.

(** X18.  The initial bands tile the frequency axis: each filter starts
    where the band of the one before ends. *)
Theorem sinc_init_bands_contiguous :
  exists low band,
    low_hz_ (fst (_init_sinc_conv x s)) = Some low /\
    band_hz_ (fst (_init_sinc_conv x s)) = Some band /\
    length low = Z.to_nat (out_channels s) /\
    forall i, (S i < Z.to_nat (out_channels s))%nat ->
      (nth i low 0 + nth i band 0 = nth (S i) low 0)%R.
Proof.
  destruct init_sinc_conv_bank
    as (Hoc & Lhz & low & band & Hlow & Hband & Llow & Hnth).
  exists low, band. repeat split; try assumption.
  intros i Hi.
  destruct (Hnth i ltac:(lia)) as (-> & ->).
  destruct (Hnth (S i) Hi) as (-> & _). ring.
Qed.

Lemma nth_initial_hz i :
  (i <= Z.to_nat (out_channels s))%nat ->
  nth i (initial_hz s) 0%R
  = _to_hz (_to_mel (min_low_hz s)
            + INR i * ((_to_mel (high_hz s) - _to_mel (min_low_hz s))
                       / INR (Z.to_nat (out_channels s))))%R.
Proof.
  intros Hi.
  destruct init_sinc_conv_bank as (Hoc & Lhz & _).
  rewrite (nth_indep _ 0%R (_to_hz 0%R)) by (rewrite Lhz; lia).
  unfold initial_hz. rewrite map_nth, nth_linspace_points by lia.
  do 4 f_equal.
  rewrite plus_IZR, INR_IZR_INZ, Z2Nat.id by lia. cbn. ring.
Qed.

(** X19.  With both ends of the band in the domain of the mel scale and at
    least one filter, the first filter starts at [min_low_hz], the last band
    ends at [sample_rate / 2 - (min_low_hz + min_band_hz)], and every
    initial band is positive. *)
Theorem sinc_init_covers_the_band :
  1 <= out_channels s ->
  (-700 < min_low_hz s)%R ->
  (min_low_hz s < high_hz s)%R ->
  exists low band,
    low_hz_ (fst (_init_sinc_conv x s)) = Some low /\
    band_hz_ (fst (_init_sinc_conv x s)) = Some band /\
    nth 0 low 0%R = min_low_hz s /\
    (nth (Z.to_nat (out_channels s) - 1) low 0
     + nth (Z.to_nat (out_channels s) - 1) band 0 = high_hz s)%R /\
    forall i, (i < Z.to_nat (out_channels s))%nat -> (0 < nth i band 0)%R.
Proof.
  intros Hn Hlo Hhi.
  destruct init_sinc_conv_bank
    as (Hoc & Lhz & low & band & Hlow & Hband & Llow & Hnth).
  pose proof nth_initial_hz as Hhz.
  set (n := Z.to_nat (out_channels s)) in *.
  set (m0 := _to_mel (min_low_hz s)) in *.
  set (m1 := _to_mel (high_hz s)) in *.
  assert (Hn' : (1 <= n)%nat) by (unfold n; lia).
  assert (HnR : (0 < INR n)%R) by (apply lt_0_INR; lia).
  assert (Hstep : (0 < (m1 - m0) / INR n)%R).
  { apply Rdiv_lt_0_compat; [|exact HnR].
    pose proof (to_mel_lt _ _ Hlo Hhi). unfold m0, m1. lra. }
  exists low, band. split; [exact Hlow|]. split; [exact Hband|].
  split; [|split].
  - destruct (Hnth 0%nat ltac:(lia)) as (-> & _).
    rewrite Hhz by lia. cbn [INR]. rewrite Rmult_0_l, Rplus_0_r.
    apply to_hz_to_mel. exact Hlo.
  - destruct (Hnth (n - 1)%nat ltac:(lia)) as (-> & ->).
    replace (S (n - 1)) with n by lia.
    replace (nth (n - 1) (initial_hz s) 0
             + (nth n (initial_hz s) 0 - nth (n - 1) (initial_hz s) 0))%R
      with (nth n (initial_hz s) 0%R) by ring.
    rewrite Hhz by lia.
    replace (m0 + INR n * ((m1 - m0) / INR n))%R with m1 by (field; lra).
    apply to_hz_to_mel. lra.
  - intros i Hi. destruct (Hnth i Hi) as (_ & ->).
    rewrite !Hhz by lia.
    assert (_to_hz (m0 + INR i * ((m1 - m0) / INR n))
            < _to_hz (m0 + INR (S i) * ((m1 - m0) / INR n)))%R.
    { apply to_hz_lt. rewrite S_INR. nra. }
    lra.
Qed.

End InitialBank.

Lemma sinc_init_bands_contiguous_witness :
  exists low band,
    low_hz_
      (fst (_init_sinc_conv [10; 4000]
              (constructed 8 (PyTuple [129]) [1; 1] [1; 1] true 1 true
                 reflect true 16000 50 50))) = Some low /\
    band_hz_
      (fst (_init_sinc_conv [10; 4000]
              (constructed 8 (PyTuple [129]) [1; 1] [1; 1] true 1 true
                 reflect true 16000 50 50))) = Some band /\
    length low = Z.to_nat 8 /\
    forall i, (S i < Z.to_nat 8)%nat ->
      (nth i low 0 + nth i band 0 = nth (S i) low 0)%R.
Proof.
  apply (sinc_init_bands_contiguous [10; 4000]
           (constructed 8 (PyTuple [129]) [1; 1] [1; 1] true 1 true reflect
              true 16000 50 50)).
  lazy. reflexivity.
Defined.

Lemma sinc_init_covers_the_band_witness :
  exists low band,
    low_hz_
      (fst (_init_sinc_conv [10; 4000]
              (constructed 8 (PyTuple [129]) [1; 1] [1; 1] true 1 true
                 reflect true 16000 50 50))) = Some low /\
    band_hz_
      (fst (_init_sinc_conv [10; 4000]
              (constructed 8 (PyTuple [129]) [1; 1] [1; 1] true 1 true
                 reflect true 16000 50 50))) = Some band /\
    nth 0 low 0%R = 50%R /\
    (nth (Z.to_nat 8 - 1) low 0 + nth (Z.to_nat 8 - 1) band 0)%R
    = high_hz (constructed 8 (PyTuple [129]) [1; 1] [1; 1] true 1 true
                 reflect true 16000 50 50) /\
    forall i, (i < Z.to_nat 8)%nat -> (0 < nth i band 0)%R.
Proof.
  apply (sinc_init_covers_the_band [10; 4000]
           (constructed 8 (PyTuple [129]) [1; 1] [1; 1] true 1 true reflect
              true 16000 50 50)).
  - lazy. reflexivity.
  - cbn. lia.
  - cbn. lra.
  - unfold high_hz. cbn. lra.
Defined.

(** ** The window and the time axis *)

Lemma init_sinc_conv_axes x s h :
  snd (_init_sinc_conv x s) = OK tt ->
  py_getitem (kernel_size s) 0 = OK (2 * h + 1) ->
  0 <= h /\
  n_ (fst (_init_sinc_conv x s))
  = Some (map (fun t => 2 * PI * Q2R t / IZR (sample_rate s))%R
            (arange (- (inject_Z (2 * h + 1 - 1) / inject_Z 2)) 0)) /\
  window_ (fst (_init_sinc_conv x s))
  = Some (map (fun t => 0.54 - 0.46 * cos (2 * PI * t / IZR (2 * h + 1)))%R
            (linspace_points 0
               (Q2R (inject_Z (2 * h + 1) / inject_Z 2) - 1) h)).
Proof.
  intros H Hk.
  assert (Hh : 0 <= h).
  { assert (Hc : snd (_init_conv1d x s) = OK tt).
    { revert H. unfold _init_sinc_conv, bind.
      destruct (_init_conv1d x s) as [s1 [[]|e]];
        [reflexivity | discriminate]. }
    destruct (init_conv1d_inversion x s Hc) as (k & Hk' & Hk0 & _).
    assert (k = 2 * h + 1) by congruence. lia. }
  split; [exact Hh|].
  pose proof (init_conv1d_keeps_kernel_size x s) as F.
  pose proof (init_conv1d_keeps_sinc_configuration x s) as G.
  remember (_init_sinc_conv x s) as r eqn:Er.
  unfold _init_sinc_conv in Er.
  unfold bind, get, getattr, assign, lift, when, ret in Er.
  destruct (_init_conv1d x s) as [s1 [[]|e]]; [|subst r; discriminate].
  cbn in F, G. injection F as F1 F2. injection G as _ G2 _ _.
  cbn in Er. unfold linspace in Er.
  destruct (out_channels s1 + 1 <? 0); [subst r; discriminate|].
  cbn in Er.
  rewrite bcast_same_length in Er
    by (rewrite length_tl, length_removelast; auto).
  cbn in Er. rewrite F1, Hk in Er. cbn in Er.
  rewrite py_int_half in Er by exact Hh.
  destruct (h <? 0); [subst r; discriminate|].
  subst r. cbn. rewrite G2. split; reflexivity.
Qed.

Lemma nth_map_in {A B} (g : A -> B) l i d d' :
  (i < length l)%nat -> nth i (map g l) d' = g (nth i l d).
Proof.
  intros H. rewrite (nth_indep _ d' (g d)) by (rewrite length_map; exact H).
  apply map_nth.
Qed.

Lemma Q2R_inject_Z z : Q2R (inject_Z z) = IZR z.
Proof. unfold Q2R, inject_Z. cbn. field. Qed.

Lemma nth_arange_half h i :
  0 <= h -> (i < Z.to_nat h)%nat ->
  Q2R (nth i (arange (- (inject_Z (2 * h + 1 - 1) / inject_Z 2)) 0) 0%Q)
  = (INR i - IZR h)%R.
Proof.
  intros Hh Hi. pose proof (length_arange_half h Hh) as L.
  unfold arange in *. rewrite length_map, length_seq in L.
  rewrite (nth_map_in _ _ _ 0%nat) by (rewrite length_seq, L; exact Hi).
  rewrite seq_nth by (rewrite L; exact Hi). cbn [Nat.add].
  rewrite Qreals.Q2R_plus, Qreals.Q2R_opp, Qreals.Q2R_div, !Q2R_inject_Z
    by discriminate.
  replace (2 * h + 1 - 1) with (2 * h) by lia.
  rewrite mult_IZR, INR_IZR_INZ. field.
Qed.

(** X20.  The half time axis of a kernel of [2 h + 1] taps has the [h]
    entries [2 pi (i - h) / sample_rate], that is, the instants [-h, ...,
    -1]; with a positive sample rate all are negative, so that the filters
    never divide by a zero of [n_ / 2]. *)
Theorem sinc_init_time_axis x s h :
  snd (_init_sinc_conv x s) = OK tt ->
  py_getitem (kernel_size s) 0 = OK (2 * h + 1) ->
  exists n,
    n_ (fst (_init_sinc_conv x s)) = Some n /\
    length n = Z.to_nat h /\
    (forall i, (i < Z.to_nat h)%nat ->
       nth i n 0%R
       = (2 * PI * (INR i - IZR h) / IZR (sample_rate s))%R) /\
    (0 < sample_rate s -> Forall (fun t => t < 0)%R n).
Proof.
  intros H Hk.
  destruct (init_sinc_conv_axes x s h H Hk) as (Hh & Hn & _).
  eexists. split; [exact Hn|].
  assert (L : length (map (fun t => 2 * PI * Q2R t / IZR (sample_rate s))%R
                        (arange (- (inject_Z (2 * h + 1 - 1) / inject_Z 2))
                           0)) = Z.to_nat h)
    by (rewrite length_map; apply length_arange_half, Hh).
  assert (V : forall i, (i < Z.to_nat h)%nat ->
            nth i (map (fun t => 2 * PI * Q2R t / IZR (sample_rate s))%R
                     (arange (- (inject_Z (2 * h + 1 - 1) / inject_Z 2)) 0))
              0%R
            = (2 * PI * (INR i - IZR h) / IZR (sample_rate s))%R).
  { intros i Hi.
    rewrite (nth_map_in _ _ _ 0%Q)
      by (rewrite length_arange_half; assumption).
    rewrite nth_arange_half by assumption. reflexivity. }
  split; [exact L|]. split; [exact V|].
  intros Hsr. apply Forall_nth. intros i d Hi. rewrite L in Hi.
  rewrite (nth_indep _ d 0%R) by (rewrite L; exact Hi).
  rewrite V by exact Hi.
  assert (INR i - IZR h < 0)%R.
  { apply lt_INR in Hi.
    rewrite (INR_IZR_INZ (Z.to_nat h)), Z2Nat.id in Hi by exact Hh. lra. }
  assert (0 < IZR (sample_rate s))%R by (apply IZR_lt; exact Hsr).
  pose proof PI_RGT_0.
  unfold Rdiv. apply Rmult_neg_pos; [nra | apply Rinv_0_lt_compat; assumption].
Qed.

Lemma sinc_init_time_axis_witness :
  exists n,
    n_ (fst (_init_sinc_conv [10; 4000]
               (constructed 8 (PyTuple [129]) [1; 1] [1; 1] true 1 true
                  reflect true 16000 50 50))) = Some n /\
    length n = Z.to_nat 64 /\
    (forall i, (i < Z.to_nat 64)%nat ->
       nth i n 0%R = (2 * PI * (INR i - IZR 64) / IZR 16000)%R) /\
    (0 < 16000 -> Forall (fun t => t < 0)%R n).
Proof.
  apply (sinc_init_time_axis [10; 4000]
           (constructed 8 (PyTuple [129]) [1; 1] [1; 1] true 1 true reflect
              true 16000 50 50) 64).
  - lazy. reflexivity.
  - reflexivity.
Defined.

(** X21.  The half window has [h] entries too, every one between 0.08 and 1,
    and starts at 0.08. *)
Theorem sinc_init_window x s h :
  snd (_init_sinc_conv x s) = OK tt ->
  py_getitem (kernel_size s) 0 = OK (2 * h + 1) ->
  exists w,
    window_ (fst (_init_sinc_conv x s)) = Some w /\
    length w = Z.to_nat h /\
    Forall (fun v => 0.08 <= v <= 1)%R w /\
    (1 <= h -> nth 0 w 0%R = 0.08%R).
Proof.
  intros H Hk.
  destruct (init_sinc_conv_axes x s h H Hk) as (Hh & _ & Hw).
  eexists. split; [exact Hw|]. split; [|split].
  - rewrite length_map. apply length_linspace_points.
  - apply Forall_map_all. intros t.
    pose proof (COS_bound (2 * PI * t / IZR (2 * h + 1))). lra.
  - intros H1.
    rewrite (nth_map_in _ _ _ 0%R)
      by (rewrite length_linspace_points; lia).
    rewrite nth_linspace_points by lia. cbn [INR].
    replace (2 * PI * (0 + 0 * _) / IZR (2 * h + 1))%R with 0%R
      by (unfold Rdiv; ring).
    rewrite cos_0. lra.
Qed.

Lemma sinc_init_window_witness :
  exists w,
    window_ (fst (_init_sinc_conv [10; 4000]
                    (constructed 8 (PyTuple [129]) [1; 1] [1; 1] true 1 true
                       reflect true 16000 50 50))) = Some w /\
    length w = Z.to_nat 64 /\
    Forall (fun v => 0.08 <= v <= 1)%R w /\
    (1 <= 64 -> nth 0 w 0%R = 0.08%R).
Proof.
  apply (sinc_init_window [10; 4000]
           (constructed 8 (PyTuple [129]) [1; 1] [1; 1] true 1 true reflect
              true 16000 50 50) 64).
  - lazy. reflexivity.
  - reflexivity.
Defined.

(** ** The band of a filter *)

(** X22.  With a positive [min_band_hz] the high cut-off of a filter lies
    above its low cut-off exactly when the low cut-off is below half the
    sample rate; from there on the clamp leaves a band that is zero or
    negative. *)
Theorem sinc_band_positive_iff self low_hz band_hz high i :
  sinc_high self (sinc_low self low_hz) band_hz = OK high ->
  length low_hz = length band_hz ->
  (i < length low_hz)%nat ->
  (0 < min_band_hz self)%R ->
  (nth i (sinc_low self low_hz) 0 < nth i high 0 <->
   nth i (sinc_low self low_hz) 0 < IZR (sample_rate self) / 2)%R.
Proof.
  intros H HL Hi Hmb. unfold sinc_high in H.
  assert (Llow : length (sinc_low self low_hz) = length band_hz)
    by (unfold sinc_low; rewrite length_map; exact HL).
  rewrite bcast_same_length in H by exact Llow. injection H as <-.
  pose proof (nth_zip
                (fun l b => clamp (l + min_band_hz self + Rabs b)
                              (min_low_hz self)
                              (IZR (sample_rate self) / 2))%R
                (sinc_low self low_hz) band_hz i 0%R 0%R 0%R Llow
                ltac:(rewrite Llow; lia)) as E.
  cbn beta in E. rewrite E. clear E.
  unfold sinc_low. rewrite !(nth_map_in _ _ _ 0%R) by exact Hi.
  pose proof (Rabs_pos (nth i low_hz 0%R)).
  pose proof (Rabs_pos (nth i band_hz 0%R)).
  unfold clamp, Rmin, Rmax.
  repeat match goal with
    | |- context [Rle_dec ?a ?b] => destruct (Rle_dec a b)
    end; lra.
Qed.

Lemma sinc_band_positive_iff_witness :
  Rlt (nth 1 (sinc_low (constructed 8 (PyTuple [129]) [1; 1] [1; 1] true 1
                          true reflect true 16000 50 50) [30; -9000]%R) 0%R)
    (nth 1 [clamp (50 + Rabs 30 + 50 + Rabs (-100)) 50 (IZR 16000 / 2);
            clamp (50 + Rabs (-9000) + 50 + Rabs 40) 50 (IZR 16000 / 2)]%R
       0%R)
  <->
  Rlt (nth 1 (sinc_low (constructed 8 (PyTuple [129]) [1; 1] [1; 1] true 1
                          true reflect true 16000 50 50) [30; -9000]%R) 0%R)
    (IZR 16000 / 2)%R.
Proof.
  apply (sinc_band_positive_iff
           (constructed 8 (PyTuple [129]) [1; 1] [1; 1] true 1 true reflect
              true 16000 50 50) [30; -9000]%R [-100; 40]%R _ 1).
  - reflexivity.
  - reflexivity.
  - cbn. lia.
  - cbn. lra.
Defined.

(** ** The taps of the filters *)

Lemma bcast2_same_shape_value f m1 m2 r c :
  has_shape m1 r c -> has_shape m2 r c ->
  bcast2 f m1 m2
  = OK (map (fun p => map (fun q => f (fst q) (snd q))
                        (combine (fst p) (snd p)))
          (combine m1 m2)).
Proof.
  intros [L1 R1] [L2 R2]. unfold bcast2.
  rewrite bcast_same_length by congruence. cbn [rbind].
  apply sequence_OK. intros [a b] Hp. rewrite Forall_forall in R1, R2.
  apply bcast_same_length. cbn [fst snd].
  rewrite (R1 a), (R2 b);
    [reflexivity | eapply in_combine_r; eauto | eapply in_combine_l; eauto].
Qed.

Lemma bcast2_one_row_value f m row r c :
  has_shape m r c -> length row = c ->
  bcast2 f m [row]
  = OK (map (fun a => map (fun q => f (fst q) (snd q)) (combine a row)) m).
Proof.
  intros [L1 R1] Hrow. unfold bcast2. rewrite bcast_row. cbn [rbind].
  apply sequence_OK. intros a Ha. rewrite Forall_forall in R1.
  apply bcast_same_length. rewrite (R1 a Ha). congruence.
Qed.

Lemma nth_outer col row c i :
  (c < length col)%nat ->
  nth i (nth c (outer col row) []) 0%R
  = (nth c col 0 * nth i row 0)%R.
Proof.
  intros Hc. unfold outer. rewrite (nth_map_in _ _ _ 0%R) by exact Hc.
  destruct (Nat.lt_ge_cases i (length row)) as [Hi | Hi].
  - apply (nth_map_in _ _ _ 0%R). exact Hi.
  - rewrite (nth_overflow (map _ row)), (nth_overflow row)
      by (rewrite ?length_map; exact Hi).
    ring.
Qed.

Lemma nth_normalised_palindrome l b i :
  (i < length l)%nat ->
  nth i (normalised_palindrome (l, b)) 0%R = (nth i l 0 / (2 * b))%R.
Proof.
  intros Hi. unfold normalised_palindrome. cbn [fst snd].
  rewrite (nth_map_in _ _ _ 0%R) by (rewrite !length_app; lia).
  rewrite app_nth1 by exact Hi. reflexivity.
Qed.

Lemma centre_of_normalised_palindrome l b :
  b <> 0%R -> nth (length l) (normalised_palindrome (l, b)) 0%R = 1%R.
Proof.
  intros Hb. unfold normalised_palindrome. cbn [fst snd].
  rewrite (nth_map_in _ _ _ 0%R) by (rewrite !length_app; cbn; lia).
  rewrite app_nth2, Nat.sub_diag by lia. cbn. field. exact Hb.
Qed.

(** X23.  The filters in closed form. For a sinc layer whose parameters have
    [oc] entries and whose window and time axis have [h], filter [c] has the
    cut-offs [low = min_low_hz + |low_hz_[c]|] and [high = clamp (low +
    min_band_hz + |band_hz_[c]|)]; its tap [i] of the left half is the
    windowed difference of sines divided by twice the band [high - low], and
    its centre tap is one when the band is not zero. *)
Theorem sinc_filter_taps s lo bd n w oc h :
  low_hz_ s = Some lo -> band_hz_ s = Some bd ->
  n_ s = Some n -> window_ s = Some w ->
  length lo = oc -> length bd = oc -> length n = h -> length w = h ->
  out_channels s = Z.of_nat oc ->
  py_getitem (kernel_size s) 0 = OK (Z.of_nat (2 * h + 1)) ->
  exists high filters,
    sinc_high s (sinc_low s lo) bd = OK high /\
    snd (_get_sinc_filters s) = OK filters /\
    forall c, (c < oc)%nat ->
      let low_c := nth c (sinc_low s lo) 0%R in
      let high_c := nth c high 0%R in
      (forall i, (i < h)%nat ->
         nth i (nth c filters []) 0%R
         = ((sin (high_c * nth i n 0) - sin (low_c * nth i n 0))
            / (nth i n 0 / 2) * nth i w 0 / (2 * (high_c - low_c)))%R) /\
      (high_c - low_c <> 0 -> nth h (nth c filters []) 0 = 1)%R.
Proof.
  intros Hlo Hbd Hn Hw Llo Lbd Ln Lw Hoc Hk.
  unfold _get_sinc_filters. unfold_monad. cbn. rewrite Hlo. cbn.
  rewrite Hbd. cbn. unfold sinc_high.
  set (low := sinc_low s lo).
  assert (Llow : length low = oc)
    by (unfold low, sinc_low; rewrite length_map; exact Llo).
  rewrite bcast_same_length by congruence. cbn.
  set (high := map _ (combine low bd)).
  assert (Lhigh : length high = oc)
    by (unfold high; rewrite length_map, length_combine; lia).
  rewrite bcast_same_length by congruence. cbn.
  set (band := map _ (combine high low)).
  assert (Lband : length band = oc)
    by (unfold band; rewrite length_map, length_combine; lia).
  rewrite Hn. cbn. rewrite Hw. cbn.
  assert (S1 : has_shape (outer high n) oc h)
    by (rewrite <- Lhigh, <- Ln; apply has_shape_outer).
  assert (S2 : has_shape (outer low n) oc h)
    by (rewrite <- Llow, <- Ln; apply has_shape_outer).
  destruct (bcast2_same_shape (fun a b => (sin a - sin b)%R) _ _ oc h S1 S2)
    as (d & Ed & Sd).
  pose proof (bcast2_same_shape_value (fun a b => (sin a - sin b)%R)
                _ _ oc h S1 S2) as Vd.
  rewrite Ed in Vd. injection Vd as Vd. rewrite Ed. cbn.
  assert (Ln2 : length (map (fun t => (t / 2)%R) n) = h)
    by (rewrite length_map; exact Ln).
  destruct (bcast2_one_row Rdiv d _ oc h Sd Ln2) as (q & Eq & Sq).
  pose proof (bcast2_one_row_value Rdiv d _ oc h Sd Ln2) as Vq.
  rewrite Eq in Vq. injection Vq as Vq. rewrite Eq. cbn.
  destruct (bcast2_one_row Rmult q w oc h Sq Lw) as (left & El & Sl).
  pose proof (bcast2_one_row_value Rmult q w oc h Sq Lw) as Vl.
  rewrite El in Vl. injection Vl as Vl. rewrite El. cbn.
  assert (Lleft : length left = length band)
    by (destruct Sl as [-> _]; congruence).
  rewrite cat3_palindromes by exact Lleft. cbn.
  rewrite divide_palindromes by exact Lleft. cbn.
  rewrite Hk. cbn. rewrite Hoc.
  exists high. eexists. split; [reflexivity|]. split.
  { apply view_same.
    replace oc with (length (combine left band))
      by (rewrite length_combine; destruct Sl as [-> _]; lia).
    apply has_shape_map. intros [l b] Hp.
    rewrite length_normalised_palindrome. cbn [fst].
    destruct Sl as [_ Sl']. rewrite Forall_forall in Sl'.
    rewrite (Sl' l) by (eapply in_combine_l; eauto). reflexivity. }
  intros c Hc.
  set (low_c := nth c low 0%R). set (high_c := nth c high 0%R).
  assert (Lc : length (combine left band) = oc)
    by (rewrite length_combine; destruct Sl as [-> _]; lia).
  rewrite (nth_map_in _ _ _ ([], 0%R)) by (rewrite Lc; exact Hc).
  rewrite combine_nth by exact Lleft.
  assert (Hband : nth c band 0%R = (high_c - low_c)%R).
  { unfold band. apply (nth_zip Rminus high low c 0%R 0%R 0%R); lia. }
  assert (Lrow : length (nth c left []) = h).
  { destruct Sl as [L Sl']. rewrite Forall_forall in Sl'.
    apply Sl', nth_In. lia. }
  rewrite Hband. split.
  - intros i Hi. rewrite nth_normalised_palindrome by (rewrite Lrow; exact Hi).
    f_equal.
    assert (Lq : length q = oc) by (destruct Sq; assumption).
    assert (Ld : length d = oc) by (destruct Sd; assumption).
    assert (Lqc : length (nth c q []) = h).
    { destruct Sq as [L Sq']. rewrite Forall_forall in Sq'.
      apply Sq', nth_In. lia. }
    assert (Ldc : length (nth c d []) = h).
    { destruct Sd as [L Sd']. rewrite Forall_forall in Sd'.
      apply Sd', nth_In. lia. }
    rewrite Vl. rewrite (nth_map_in _ _ _ []) by lia.
    rewrite (nth_zip Rmult _ w i 0%R 0%R 0%R) by lia. f_equal.
    rewrite Vq. rewrite (nth_map_in _ _ _ []) by lia.
    rewrite (nth_zip Rdiv _ _ i 0%R 0%R 0%R) by lia.
    rewrite (nth_map_in _ n _ 0%R) by lia. f_equal.
    rewrite Vd.
    rewrite (nth_map_in _ _ _ ([], []))
      by (rewrite length_combine; destruct S1 as [-> _], S2 as [-> _]; lia).
    rewrite combine_nth by (destruct S1 as [-> _], S2 as [-> _]; lia).
    cbn [fst snd].
    pose proof (nth_zip (fun a b => (sin a - sin b)%R)
                  (nth c (outer high n) []) (nth c (outer low n) [])
                  i 0%R 0%R 0%R) as E.
    cbn beta in E. rewrite E.
    + rewrite !nth_outer by lia. reflexivity.
    + destruct S1 as [L1 R1], S2 as [L2 R2].
      rewrite Forall_forall in R1, R2.
      rewrite (R1 (nth c (outer high n) [])), (R2 (nth c (outer low n) []));
        [reflexivity | apply nth_In; lia | apply nth_In; lia].
    + destruct S1 as [L1 R1]. rewrite Forall_forall in R1.
      rewrite (R1 (nth c (outer high n) [])) by (apply nth_In; lia).
      exact Hi.
  - intros Hb. rewrite <- Lrow. apply centre_of_normalised_palindrome.
    exact Hb.
Qed.

Lemma sinc_filter_taps_witness :
  exists high filters,
    sinc_high
      (set_n_ (Some [-2; -1]%R)
         (set_window_ (Some [0.08; 0.5]%R)
            (set_band_hz_ (Some [100; 200]%R)
               (set_low_hz_ (Some [30; 40]%R)
                  (constructed 2 (PyTuple [5]) [1; 1] [1; 1] true 1 true
                     reflect true 16000 50 50)))))
      (sinc_low
         (set_n_ (Some [-2; -1]%R)
            (set_window_ (Some [0.08; 0.5]%R)
               (set_band_hz_ (Some [100; 200]%R)
                  (set_low_hz_ (Some [30; 40]%R)
                     (constructed 2 (PyTuple [5]) [1; 1] [1; 1] true 1 true
                        reflect true 16000 50 50)))))
         [30; 40]%R)
      [100; 200]%R = OK high /\
    snd (_get_sinc_filters
           (set_n_ (Some [-2; -1]%R)
              (set_window_ (Some [0.08; 0.5]%R)
                 (set_band_hz_ (Some [100; 200]%R)
                    (set_low_hz_ (Some [30; 40]%R)
                       (constructed 2 (PyTuple [5]) [1; 1] [1; 1] true 1
                          true reflect true 16000 50 50))))))
    = OK filters /\
    forall c, (c < 2)%nat ->
      let low_c :=
        nth c
          (sinc_low
             (set_n_ (Some [-2; -1]%R)
                (set_window_ (Some [0.08; 0.5]%R)
                   (set_band_hz_ (Some [100; 200]%R)
                      (set_low_hz_ (Some [30; 40]%R)
                         (constructed 2 (PyTuple [5]) [1; 1] [1; 1] true 1
                            true reflect true 16000 50 50)))))
             [30; 40]%R) 0%R in
      let high_c := nth c high 0%R in
      (forall i, (i < 2)%nat ->
         nth i (nth c filters []) 0%R
         = ((sin (high_c * nth i [-2; -1] 0) - sin (low_c * nth i [-2; -1] 0))
            / (nth i [-2; -1] 0 / 2) * nth i [0.08; 0.5] 0
            / (2 * (high_c - low_c)))%R) /\
      (high_c - low_c <> 0 -> nth 2 (nth c filters []) 0 = 1)%R.
Proof.
  apply (sinc_filter_taps
           (set_n_ (Some [-2; -1]%R)
              (set_window_ (Some [0.08; 0.5]%R)
                 (set_band_hz_ (Some [100; 200]%R)
                    (set_low_hz_ (Some [30; 40]%R)
                       (constructed 2 (PyTuple [5]) [1; 1] [1; 1] true 1
                          true reflect true 16000 50 50)))))
           [30; 40]%R [100; 200]%R [-2; -1]%R [0.08; 0.5]%R 2 2);
    reflexivity.
Defined.

(** ** The sinc layer takes one channel *)

Lemma get_padding_elem_pair L s k d p :
  _get_padding_elem L s k d = OK p -> exists a b, p = [a; b].
Proof.
  unfold _get_padding_elem.
  destruct (1 <? s); [destruct (py_truediv (L - k * d) s)
                     | destruct (py_truediv (L - d * (k - 1) - 1) s)];
    cbn; intros [= <-]; eauto.
Qed.

Lemma pad_3d_inversion B C T pl pr pm a :
  pad [B; C; T] [pl; pr] pm = OK a -> exists T', a = [B; C; T'].
Proof.
  unfold pad, leading_dims.
  cbn [length Nat.div2 Nat.sub firstn Nat.eqb andb orb].
  destruct pm; cbn [rev app pad_dims];
    try (destruct (negb (C =? 0)); [|discriminate]);
    destruct (pad_dim _ T pl pr); try discriminate;
    cbn; intros [= <-]; eauto.
Qed.

Lemma manage_padding_keeps_channels s B C T ks dl st a :
  conv2d s = false ->
  snd (_manage_padding [B; C; T] ks dl st s) = OK a ->
  exists T', a = [B; C; T'].
Proof.
  intros Hc H. unfold _manage_padding in H.
  do 5 peel_read H.
  match goal with
  | X : lift (_get_padding_elem _ _ _ _) s = _ |- _ =>
      unfold lift in X; injection X as X;
      apply get_padding_elem_pair in X; destruct X as (pl & pr & ->)
  end.
  unfold bind, get in H. rewrite Hc in H. cbn [snd lift] in H.
  apply pad_3d_inversion in H. exact H.
Qed.

Lemma init_conv1d_rank3_flags B T C s :
  (reshape_conv1d (fst (_init_conv1d [B; T; C] s)),
   unsqueeze (fst (_init_conv1d [B; T; C] s)))
  = (reshape_conv1d s, unsqueeze s).
Proof.
  unfold _init_conv1d. unfold_monad. exec. run_results; reflexivity.
Qed.

Lemma init_conv1d_keeps_mode x :
  preserves (fun s => (sinc_conv s, conv2d s)) (_init_conv1d x).
Proof. unfold _init_conv1d. frame. Qed.

(** A call of a sinc layer that neither folds nor unsqueezes, on an input
    of several channels: the filters have one input channel. *)
Lemma forward_sinc_channels_raise s B T C :
  C <> 1 ->
  reshape_conv1d s = false -> unsqueeze s = false ->
  sinc_conv s = true -> conv2d s = false ->
  exists e, snd (forward [B; T; C] false s) = Raise e.
Proof.
  intros HC Hrc Hus Hsc Hc2.
  destruct (snd (forward [B; T; C] false s)) as [out|e] eqn:H;
    [exfalso | eauto].
  unfold forward in H. cbn [when] in H.
  do 10 peel_read H. clear H.
  unfold get in E1, E3, E5, E7. unfold lift in E0. cbn in E0.
  injection E0 as <-. injection E1 as <-. injection E3 as <-.
  injection E7 as <-.
  rewrite Hrc in E2. rewrite Hus in E4. rewrite Hsc in E8.
  injection E2 as <-. injection E4 as <-.
  assert (Ha : exists T', a6 = [B; C; T']).
  { destruct a5.
    - apply (f_equal snd) in E6. cbn [snd] in E6.
      do 3 peel_read E6.
      eapply manage_padding_keeps_channels; eauto.
    - injection E6 as <-. eauto. }
  destruct Ha as (T' & ->).
  apply (f_equal snd) in E8. cbn [snd] in E8.
  do 8 peel_read E8.
  unfold lift in E8. cbn in E8.
  apply Z.eqb_neq in HC. rewrite HC, andb_false_r in E8. discriminate.
Qed.

(** X24.  The sinc filters are convolved as a weight of one input channel: a
    layer built with [sinc_conv] never returns an output for an input
    (batch, time, channels) of zero or several channels. *)
Theorem forward_sinc_multichannel_never_returns
  oc ks st dl pd g b pm sr mlo mbd self B T C :
  __init__ oc ks st dl pd g b pm true sr mlo mbd = OK self ->
  C <> 1 ->
  exists e, snd (forward [B; T; C] true self) = Raise e.
Proof.
  intros H HC.
  pose proof (init_flags _ _ _ _ _ _ _ _ _ _ _ _ _ H) as (Hs & H1 & H2 & Hx).
  pose proof H as Hself.
  apply init_inversion in Hself. destruct Hself as (_ & _ & Hself).
  assert (Hrc : reshape_conv1d self = false) by (subst self; reflexivity).
  assert (Hus : unsqueeze self = false) by (subst self; reflexivity).
  cbn in Hx.
  destruct (arity ks =? 2) eqn:A2; [discriminate|].
  destruct (arity ks =? 1) eqn:A1.
  2:{ apply Z.eqb_neq in A1, A2.
      rewrite (forward_after_init _ self self)
        by (eapply other_arity_builds_nothing; eauto).
      apply forward_without_layer; subst self; reflexivity. }
  destruct (init_params [B; T; C] self) as [s' [[]|e]] eqn:E.
  2:{ exists e. rewrite (forward_init_raises _ _ _ _ E). reflexivity. }
  rewrite (forward_after_init _ _ _ E).
  rewrite init_params_1d, Hs in E by assumption.
  pose proof (init_sinc_conv_frame [B; T; C] self) as Fr.
  rewrite E in Fr. cbn [fst] in Fr.
  pose proof (init_conv1d_rank3_flags B T C self) as F1.
  pose proof (init_conv1d_keeps_mode [B; T; C] self) as F2.
  cbv beta in F2.
  unfold call_attributes in Fr.
  injection Fr as R1 R2 R3 R4 _ _ _ _ _ _.
  injection F1 as Q1 Q2. injection F2 as Q3 Q4.
  apply forward_sinc_channels_raise; congruence.
Qed.

Lemma forward_sinc_multichannel_never_returns_witness :
  exists e,
    snd (forward [10; 4000; 2] true
           (constructed 8 (PyTuple [129]) [1; 1] [1; 1] true 1 true reflect
              true 16000 50 50)) = Raise e.
Proof.
  apply (forward_sinc_multichannel_never_returns 8 (PyTuple [129]) [1; 1]
           [1; 1] true 1 true reflect 16000 50 50);
    [reflexivity | discriminate].
Defined.
